(** * Telemetry pipeline of Agentic-Logs-Analyzer: a shallow embedding

    The Go packages [detectors], [metrics], [events] and [config] of
    [telemetry-service/internal] are embedded as Rocq modules of the same
    names.  Conventions:

    - [float64] is Rocq's primitive binary64 [float]; Go's [+], [*], [/],
      [>], [>=], [<=] on [float64] are the IEEE 754 operations of
      [PrimFloat], so rounding and NaN behave as in the compiled program;
    - a Go [string] is a [string] (a sequence of bytes);
    - a Go [map[string]V] is an [option (gmap string V)], [None] being the
      [nil] map, which reads as the empty map;
    - [for k, v := range m] visits the entries of [m] in an order the
      language leaves unspecified: the loops below take the visiting order
      as an argument, and [range_of m visit] says that [visit] is one of
      the orders the runtime may choose;
    - [time.Now()] is an argument [now];
    - a pointer result that may be [nil] is an [option]. *)

From Stdlib Require Import ZArith Floats Uint63 Ascii String DecimalString.
From Stdlib Require DecimalZ DecimalPos.
From stdpp Require Import base list gmap strings fin_maps fin_sets.

(* Decimal literals such as 1.1 denote the nearest binary64 value, as the
   constants of the Go source do. *)
#[local] Set Warnings "-inexact-float".

Local Open Scope Z_scope.
Local Open Scope string_scope.
Local Open Scope list_scope.

(** ** The Go runtime and standard library, as far as the code uses them *)

Module Go.

(** [map[string]V]: [None] is the nil map. *)
Definition map (V : Type) : Type := option (gmap string V).

(** [make(map[string]V)]: a fresh, empty, non-nil map. *)
Definition make {V : Type} : map V := Some ∅.

(** The entries a read of the map sees: a nil map reads as empty. *)
Definition entries {V : Type} (m : map V) : gmap string V := default ∅ m.

(** [m[k]] with the comma-ok result. *)
Definition index {V : Type} (m : map V) (k : string) : option V := entries m !! k.

(** [visit] is a sequence in which [for k, v := range m] may produce the
    entries of [m]: each entry once, in any order. *)
Definition range_of {V : Type} (m : map V) (visit : list (string * V)) : Prop :=
  visit ≡ₚ map_to_list (entries m).

(** [strings.HasPrefix(s, prefix)]. *)
Definition HasPrefix (s prefix : string) : bool := String.prefix prefix s.

(** [strings.Split(s, sep)] for a separator [sep] of one byte: the
    substrings of [s] between the occurrences of [sep], so one more part
    than there are separators (and the single part [""] for [s = ""]). *)
Fixpoint Split (s : string) (sep : ascii) : list string :=
  match s with
  | EmptyString => [EmptyString]
  | String c rest =>
      if Ascii.eqb c sep then EmptyString :: Split rest sep
      else match Split rest sep with
           | [] => [String c EmptyString]
           | part :: parts => String c part :: parts
           end
  end.

(** [strings.Join(parts, sep)] with a separator of one byte. *)
Fixpoint Join (parts : list string) (sep : ascii) : string :=
  match parts with
  | [] => EmptyString
  | [p] => p
  | p :: ps => p ++ String sep (Join ps sep)
  end.

(** [strings.Count(s, sep)] with a separator of one byte. *)
Fixpoint Count (s : string) (sep : ascii) : nat :=
  match s with
  | EmptyString => 0%nat
  | String c rest => ((if Ascii.eqb c sep then 1 else 0) + Count rest sep)%nat
  end.

(** No byte of [s] is [sep]. *)
Definition free_of (sep : ascii) (s : string) : Prop := Count s sep = 0%nat.

(** [float64(n)] for a length [n] (a slice holds fewer than [2^63]
    elements, so the length is read as a 63-bit integer without loss). *)
Definition float64_of_len (n : nat) : float :=
  PrimFloat.of_uint63 (Uint63.of_Z (Z.of_nat n)).

(** Decimal digits of a natural number. *)
Definition decimal (n : N) : string := NilZero.string_of_uint (N.to_uint n).

(** The integer nearest to [m * 2^e], ties to the even one. *)
Definition round_half_even (m : N) (e : Z) : N :=
  if (0 <=? e)%Z then (m * 2 ^ Z.to_N e)%N
  else
    let d := (2 ^ Z.to_N (- e))%N in
    let q := (m / d)%N in
    let r := (m mod d)%N in
    match (2 * r ?= d)%N with
    | Lt => q
    | Gt => (q + 1)%N
    | Eq => if N.even q then q else (q + 1)%N
    end.

(** [fmt.Sprintf("%.2f", x)]: the exact value of [x] rounded to two
    decimals, ties to even; [NaN], [+Inf] and [-Inf] for the special
    values. *)
Definition Sprintf_2f (x : float) : string :=
  let sign (s : bool) := if s then "-" else "" in
  match Prim2SF x with
  | S754_nan => "NaN"
  | S754_infinity s => if s then "-Inf" else "+Inf"
  | S754_zero s => sign s ++ "0.00"
  | S754_finite s m e =>
      let h := round_half_even (Npos m * 100) e in
      let frac := (h mod 100)%N in
      sign s ++ decimal (h / 100) ++ "."
        ++ (if (frac <? 10)%N then "0" else "") ++ decimal frac
  end.

End Go.

(** ** Package [detectors]: model.go and cpu_spike.go *)

Module detectors.

(** [type Severity string] with its four constants. *)
Definition Severity : Type := string.
Definition SeverityLow : Severity := "low".
Definition SeverityMedium : Severity := "medium".
Definition SeverityHigh : Severity := "high".
Definition SeverityCritical : Severity := "critical".

(** [type SignalType string] with its four constants (the spelling of the
    last one is the source's). *)
Definition SignalType : Type := string.
Definition SignalCrashLoop : SignalType := "crash_loop".
Definition SignalOOM : SignalType := "oom".
Definition SignalCPUSpike : SignalType := "cpu_spike".
Definition SignalAnamoly : SignalType := "anamoly".

(** [time.Time], as a reading of the clock. *)
Definition Time : Type := Z.

Record IncidentSignal : Type := {
  ID : string;
  Type_ : SignalType;
  Severity_ : Severity;
  Namespace : string;
  Resource : string;
  Message : string;
  Timestamp : Time;
  Metadata : Go.map string
}.

Record SignalInput : Type := {
  Metrics : Go.map (list float);
  Labels : Go.map string
}.

Record CPUSpikeDetector : Type := { Threshold : float }.

Definition NewCPUSpikeDetector (threshold : float) : CPUSpikeDetector :=
  {| Threshold := threshold |}.

Definition Name (d : CPUSpikeDetector) : string := "cpu_spike_detector".

(** [average]: 0 for no values, else the sum accumulated from the left,
    divided by the count. *)
Definition average (values : list float) : float :=
  match values with
  | [] => 0%float
  | _ :: _ =>
      let sum := fold_left PrimFloat.add values 0%float in
      PrimFloat.div sum (Go.float64_of_len (length values))
  end.

Definition parseKey (key : string) : string * string :=
  let parts := Go.Split key ":" in
  match parts with
  | [_; p1; p2] => (p1, p2)
  | [_; p1] => ("", p1)
  | _ => ("", "unknown")
  end.

(** [avg >= threshold*c] is [threshold*c <= avg]; the constants 1.5, 1.2
    and 1.1 are the [float64] values nearest to them (1.5 exactly,
    0x1.3333333333333p+0 and 0x1.199999999999ap+0), and each product is
    rounded to [float64] before it is compared. *)
Definition ClassifySeverity (avg threshold : float) : Severity :=
  if PrimFloat.leb (PrimFloat.mul threshold 1.5%float) avg then SeverityCritical
  else if PrimFloat.leb (PrimFloat.mul threshold 1.2%float) avg then SeverityHigh
  else if PrimFloat.leb (PrimFloat.mul threshold 1.1%float) avg then SeverityMedium
  else SeverityLow.

(** The signal [Detect] builds for a breaching [key] of mean [avg]. *)
Definition spike_signal (d : CPUSpikeDetector) (now : Time) (key : string) (avg : float)
  : IncidentSignal :=
  let '(namespace, resource) := parseKey key in
  {| ID := "";
     Type_ := SignalCPUSpike;
     Severity_ := ClassifySeverity avg (Threshold d);
     Namespace := namespace;
     Resource := resource;
     Message := "CPU spike detected: average usage " ++ Go.Sprintf_2f avg
                ++ " millicores exceeds threshold " ++ Go.Sprintf_2f (Threshold d);
     Timestamp := now;
     Metadata := Some (<["threshold_millicores" := Go.Sprintf_2f (Threshold d)]>
                      (<["average_cpu_millicores" := Go.Sprintf_2f avg]> ∅)) |}.

(** [Detect], over the order [visit] in which [range input.Metrics]
    produces the entries: a key without the prefix is skipped, the first
    key whose mean exceeds the threshold returns. *)
Fixpoint Detect (d : CPUSpikeDetector) (now : Time) (visit : list (string * list float))
  : option IncidentSignal * bool :=
  match visit with
  | [] => (None, false)
  | (key, values) :: rest =>
      if negb (Go.HasPrefix key "cpu:") then Detect d now rest
      else
        let avg := average values in
        if PrimFloat.ltb (Threshold d) avg then (Some (spike_signal d now key avg), true)
        else Detect d now rest
  end.

(** The test the loop applies to one entry. *)
Definition breaches (d : CPUSpikeDetector) (entry : string * list float) : bool :=
  Go.HasPrefix entry.1 "cpu:" && PrimFloat.ltb (Threshold d) (average entry.2).

End detectors.

(** ** Package [metrics]: aggregator.go *)

Module metrics.

(** Modelled from the spec: the declaration of the struct [Metric] is not
    among the source files; the fields are the ones aggregator.go reads
    ([m.Type], [m.Namespace], [m.Resource], [m.Value], [m.Labels]), typed
    as the spec's data model gives them (the kind, an optional namespace,
    the resource, a float value, a map of labels). *)
Record Metric : Type := {
  Type_ : string;
  Namespace : string;
  Resource : string;
  Value : float;
  Labels : Go.map string
}.

(** [fmt.Sprintf] with the verbs [%s] and the separators [":"] is the
    concatenation of the strings. *)
Definition buildMetricKey (m : Metric) : string :=
  if negb (String.eqb (Namespace m) "") then
    Type_ m ++ ":" ++ Namespace m ++ ":" ++ Resource m
  else
    Type_ m ++ ":" ++ Resource m.

(** [append(aggregated[key], v)]: a missing key reads as the nil slice. *)
Definition append_at (aggregated : gmap string (list float)) (key : string) (v : float)
  : gmap string (list float) :=
  <[key := default [] (aggregated !! key) ++ [v]]> aggregated.

(** [for k, v := range m.Labels { labels[k] = v }]: every entry of the
    metric's labels is written into [labels]. *)
Definition merge_labels (labels : gmap string string) (ml : Go.map string)
  : gmap string string :=
  map_fold (fun k v acc => <[k := v]> acc) labels (Go.entries ml).

(** The body of the loop of [AggregateMetrics], on the two local maps. *)
Definition aggregate_step (st : gmap string (list float) * gmap string string) (m : Metric)
  : gmap string (list float) * gmap string string :=
  let key := buildMetricKey m in
  (append_at st.1 key (Value m), merge_labels st.2 (Labels m)).

(** [AggregateMetrics]: the two maps are created by [make], so they
    start empty and are not nil; the loop runs over the metrics in
    order. *)
Definition AggregateMetrics (ms : list Metric) : detectors.SignalInput :=
  let st := fold_left aggregate_step ms (∅, ∅) in
  {| detectors.Metrics := Some st.1; detectors.Labels := Some st.2 |}.


(** The values of the metrics of [ms] whose key is [k], in input order. *)
Definition values_of (k : string) (ms : list Metric) : list float :=
  Value <$> filter (fun m => buildMetricKey m = k) ms.

(** The three components of the key of [m] hold no [":"]. *)
Definition colon_free (m : Metric) : Prop :=
  Go.free_of ":" (Type_ m) /\ Go.free_of ":" (Namespace m) /\ Go.free_of ":" (Resource m).

End metrics.

(** ** Package [config]: config.go *)

Module config.

(** [time.Duration]: a signed 64-bit count of nanoseconds. *)
Definition Duration : Type := Z.
Definition Second : Duration := 1000000000.

(** The value a signed 64-bit integer holds after an overflowing
    operation. *)
Definition wrap64 (z : Z) : Z := (z + 2 ^ 63) mod 2 ^ 64 - 2 ^ 63.

Record Config : Type := {
  ServiceName : string;
  Environment : string;
  ClusterName : string;
  PollInterval : Duration;
  EventSinkURL : string;
  EventTimeout : Duration;
  HTTPPort : string;
  CPUThreshold : float
}.

(** How a call that may end in [log.Fatal] ends: the process exits with
    the logged message, or the call returns. *)
Inductive outcome (A : Type) : Type :=
| Fatal (msg : string)
| Returns (a : A).
Arguments Fatal {A} msg.
Arguments Returns {A} a.

(** [validate]: the five checks in the order of the source; the first
    that fails ends the process. *)
Definition validate (cfg : Config) : outcome unit :=
  if String.eqb (EventSinkURL cfg) "" then Fatal "EVENT_SINK_URL is required"
  else if (PollInterval cfg <=? 0)%Z then Fatal "POLL_INTERVAL must be greater than 0"
  else if (EventTimeout cfg <=? 0)%Z then Fatal "EVENT_TIMEOUT must be greater than 0"
  else if String.eqb (HTTPPort cfg) "" then Fatal "HTTP_PORT is required"
  else if PrimFloat.leb (CPUThreshold cfg) 0%float then Fatal "CPU_THRESHOLD must be greater than 0"
  else Returns tt.

Section Load.

(** The process environment ([os.Getenv] gives [""] for an unset
    variable) and the two parsers of [strconv]: [Atoi] gives an [int] or
    fails, [ParseFloat] a [float64] or fails. *)
Variable Getenv : string -> string.
Variable Atoi : string -> option Z.
Variable ParseFloat : string -> option float.

Definition getenv (key defaultValue : string) : string :=
  let value := Getenv key in
  if String.eqb value "" then defaultValue else value.

Definition getDurationEnv (key : string) (defaultValue : Duration) : outcome Duration :=
  let value := Getenv key in
  if String.eqb value "" then Returns defaultValue
  else match Atoi value with
       | None => Fatal ("Invalid duration value for " ++ key ++ ": " ++ value)
       | Some seconds => Returns (wrap64 (seconds * Second))
       end.

Definition getFloatEnv (key : string) (defaultValue : float) : outcome float :=
  let value := Getenv key in
  if String.eqb value "" then Returns defaultValue
  else match ParseFloat value with
       | None => Fatal ("Invalid float value for " ++ key ++ ": " ++ value)
       | Some f => Returns f
       end.

Definition bind {A B : Type} (x : outcome A) (k : A -> outcome B) : outcome B :=
  match x with
  | Fatal msg => Fatal msg
  | Returns a => k a
  end.

(** [Load]: the fields are read in the order of the struct literal, then
    [validate] runs; [logConfig] only writes to the log. *)
Definition Load : outcome Config :=
  bind (getDurationEnv "POLL_INTERVAL" (30 * Second)) (fun pollInterval =>
  bind (getDurationEnv "EVENT_TIMEOUT" (180 * Second)) (fun eventTimeout =>
  bind (getFloatEnv "CPU_THRESHOLD" 50%float) (fun cpuThreshold =>
  let cfg := {| ServiceName := getenv "SERVICE_NAME" "telemetry-service";
                Environment := getenv "ENVIRONMENT" "development";
                ClusterName := "";
                PollInterval := pollInterval;
                EventSinkURL := getenv "EVENT_SINK_URL" "http://localhost:8080/events";
                EventTimeout := eventTimeout;
                HTTPPort := getenv "HTTP_PORT" "8080";
                CPUThreshold := cpuThreshold |} in
  bind (validate cfg) (fun _ => Returns cfg)))).

End Load.

End config.

(** ** Package [events]: event.go and publisher.go *)

Module events.

Record Event : Type := {
  ID : string;
  Type_ : string;
  Severity : string;
  Namespace : string;
  Resource : string;
  Message : string;
  Timestamp : detectors.Time;
  Metadata : Go.map string;
  Source : string
}.

Record Publisher : Type := {
  client_Timeout : config.Duration;
  sinkURL : string;
  source : string
}.

Definition NewPublisher (cfg : config.Config) : Publisher :=
  {| client_Timeout := config.EventTimeout cfg;
     sinkURL := config.EventSinkURL cfg;
     source := config.ServiceName cfg |}.

(** A value or a Go [error] (its text). *)
Inductive result (A : Type) : Type :=
| Ok (a : A)
| Err (cause : string).
Arguments Ok {A} a.
Arguments Err {A} cause.

Record Request : Type := {
  Method : string;
  URL : string;
  ContentType : string;
  Payload : string
}.

Record Response : Type := {
  StatusCode : Z;
  Body : string
}.

(** What the calls that leave the package answer during one [Publish]:
    [uuid.NewString], [json.Marshal] of the event, whether
    [http.NewRequestWithContext] accepts the method and the URL,
    [client.Do], and [json.Decode] of the response body into a map, of
    which the [%v] renderings of the entries ["decision"] and ["message"]
    are kept. *)
Record World : Type := {
  uuid_NewString : string;
  json_Marshal : Event -> result string;
  http_NewRequest : string -> string -> result unit;
  client_Do : Request -> result Response;
  json_Decode : string -> result (string * string)
}.

(** The four errors [Publish] returns. *)
Inductive PublishError : Type :=
| MarshalFailed (cause : string)
| RequestFailed (cause : string)
| PublishFailed (cause : string)
| UnexpectedStatus (code : Z).

(** The text [fmt.Errorf] gives each of them. *)
Definition Error (e : PublishError) : string :=
  match e with
  | MarshalFailed cause => "failed to marshal event: " ++ cause
  | RequestFailed cause => "failed to create request: " ++ cause
  | PublishFailed cause => "failed to publish event: " ++ cause
  | UnexpectedStatus code =>
      "unexpected status code: " ++ NilZero.string_of_int (Z.to_int code)
  end.

Definition event_of (w : World) (p : Publisher) (signal : detectors.IncidentSignal) : Event :=
  {| ID := uuid_NewString w;
     Type_ := detectors.Type_ signal;
     Severity := detectors.Severity_ signal;
     Namespace := detectors.Namespace signal;
     Resource := detectors.Resource signal;
     Message := detectors.Message signal;
     Timestamp := detectors.Timestamp signal;
     Metadata := detectors.Metadata signal;
     Source := source p |}.

(** The request built by [http.NewRequestWithContext] for the marshalled
    [body], with the header [Publish] sets. *)
Definition request_of (p : Publisher) (body : string) : Request :=
  {| Method := "POST"; URL := sinkURL p;
     ContentType := "application/json"; Payload := body |}.

(** The line feed that ends each line written. *)
Definition LF : string := String "010" EmptyString.

(** What the four print calls write after a body that decodes. *)
Definition agent_response (decision message : string) : list string :=
  [(LF ++ "--- Agent Response ---" ++ LF)%string;
   ("Decision: " ++ decision ++ LF)%string;
   ("Message: " ++ message ++ LF)%string;
   ("----------------------" ++ LF)%string].

(** What is written after a body that does not decode. *)
Definition non_json_response : string := "Agent response received (non-JSON)." ++ LF.

(** [Publish]: the writes to standard output, and the error returned
    ([None] for [nil]). *)
Definition Publish (w : World) (p : Publisher) (signal : detectors.IncidentSignal)
  : list string * option PublishError :=
  let event := event_of w p signal in
  match json_Marshal w event with
  | Err cause => ([], Some (MarshalFailed cause))
  | Ok body =>
      match http_NewRequest w "POST" (sinkURL p) with
      | Err cause => ([], Some (RequestFailed cause))
      | Ok _ =>
          match client_Do w (request_of p body) with
          | Err cause => ([], Some (PublishFailed cause))
          | Ok resp =>
              if ((StatusCode resp <? 200) || (300 <=? StatusCode resp))%Z then
                ([], Some (UnexpectedStatus (StatusCode resp)))
              else
                match json_Decode w (Body resp) with
                | Ok (decision, message) => (agent_response decision message, None)
                | Err _ => ([non_json_response], None)
                end
          end
      end
  end.

(** The HTTP exchange took place and failed in transport. *)
Definition transport_error (w : World) (p : Publisher) (signal : detectors.IncidentSignal)
  : Prop :=
  exists body cause,
    json_Marshal w (event_of w p signal) = Ok body /\
    http_NewRequest w "POST" (sinkURL p) = Ok tt /\
    client_Do w (request_of p body) = Err cause.

(** The HTTP exchange completed with the response [resp]. *)
Definition exchange_completes (w : World) (p : Publisher) (signal : detectors.IncidentSignal)
    (resp : Response) : Prop :=
  exists body,
    json_Marshal w (event_of w p signal) = Ok body /\
    http_NewRequest w "POST" (sinkURL p) = Ok tt /\
    client_Do w (request_of p body) = Ok resp.

Definition is_2xx (code : Z) : Prop := (200 <= code < 300)%Z.

(** The exchange completed with a status outside 2xx. *)
Definition status_error (w : World) (p : Publisher) (signal : detectors.IncidentSignal)
  : Prop :=
  exists resp, exchange_completes w p signal resp /\ ~ is_2xx (StatusCode resp).

End events.

(** ** Sample data, used to run the definitions *)

Module sample.

(** A detector with the threshold 50.0. *)
Definition d50 : detectors.CPUSpikeDetector := detectors.NewCPUSpikeDetector 50%float.

(** Three samples of one pod (scenario A of the spec). *)
Definition nginx : string * list float :=
  ("cpu:default:nginx", [95.2%float; 96.1%float; 94.8%float]).

(** A second pod above the threshold, and a key of another kind. *)
Definition api : string * list float := ("cpu:default:api", [80%float; 70%float]).
Definition db_memory : string * list float := ("memory:default:db", [900%float]).

(** An aggregation in which two cpu keys exceed the threshold. *)
Definition two_spikes : detectors.SignalInput :=
  {| detectors.Metrics := Some (list_to_map [nginx; api; db_memory]);
     detectors.Labels := Go.make |}.

(** An aggregation in which one cpu key exceeds the threshold. *)
Definition one_spike : detectors.SignalInput :=
  {| detectors.Metrics := Some (list_to_map [db_memory; nginx]);
     detectors.Labels := Go.make |}.


(** Samples of two pods of one namespace, and a third without
    namespace. *)
Definition nginx_1 : metrics.Metric :=
  {| metrics.Type_ := "cpu"; metrics.Namespace := "default"; metrics.Resource := "nginx";
     metrics.Value := 95.2%float; metrics.Labels := Some {["app" := "nginx"]} |}.
Definition nginx_2 : metrics.Metric :=
  {| metrics.Type_ := "cpu"; metrics.Namespace := "default"; metrics.Resource := "nginx";
     metrics.Value := 96.1%float; metrics.Labels := Some {["app" := "nginx"]} |}.
Definition api_1 : metrics.Metric :=
  {| metrics.Type_ := "cpu"; metrics.Namespace := "default"; metrics.Resource := "api";
     metrics.Value := 12%float; metrics.Labels := Some {["app" := "api"]} |}.
Definition node_1 : metrics.Metric :=
  {| metrics.Type_ := "cpu"; metrics.Namespace := ""; metrics.Resource := "node";
     metrics.Value := 400%float; metrics.Labels := None |}.

(** A configuration that meets the four constraints of the spec's
    configuration surface and has an empty HTTP port. *)
Definition cfg_no_port : config.Config :=
  {| config.ServiceName := "telemetry-service";
     config.Environment := "development";
     config.ClusterName := "";
     config.PollInterval := 30 * config.Second;
     config.EventSinkURL := "http://localhost:8080/events";
     config.EventTimeout := 180 * config.Second;
     config.HTTPPort := "";
     config.CPUThreshold := 50%float |}.

(** The defaults of [Load]. *)
Definition cfg_default : config.Config :=
  {| config.ServiceName := "telemetry-service";
     config.Environment := "development";
     config.ClusterName := "";
     config.PollInterval := 30 * config.Second;
     config.EventSinkURL := "http://localhost:8080/events";
     config.EventTimeout := 180 * config.Second;
     config.HTTPPort := "8080";
     config.CPUThreshold := 50%float |}.

(** The defaults with the threshold NaN, which [strconv.ParseFloat]
    gives for the text NaN. *)
Definition cfg_nan_threshold : config.Config :=
  {| config.ServiceName := "telemetry-service";
     config.Environment := "development";
     config.ClusterName := "";
     config.PollInterval := 30 * config.Second;
     config.EventSinkURL := "http://localhost:8080/events";
     config.EventTimeout := 180 * config.Second;
     config.HTTPPort := "8080";
     config.CPUThreshold := PrimFloat.nan |}.

(** An environment in which only CPU_THRESHOLD is set, to the text NaN,
    with the answer [strconv.ParseFloat] gives for that text. *)
Definition env_nan_threshold (key : string) : string :=
  if String.eqb key "CPU_THRESHOLD" then "NaN" else "".
Definition parse_nan (text : string) : option float :=
  if String.eqb text "NaN" then Some PrimFloat.nan else None.

(** A publisher whose sink address is not empty and has no scheme. *)
Definition publisher_no_scheme : events.Publisher :=
  {| events.client_Timeout := 180 * config.Second;
     events.sinkURL := ":8080/events";
     events.source := "telemetry-service" |}.

(** A world in which the event marshals, an address that starts with
    [":"] is refused by [http.NewRequestWithContext] (its URL has no
    scheme), the sink answers 200 and the answer is not JSON. *)
Definition world_ok : events.World :=
  {| events.uuid_NewString := "3f0c2a9e-5b7d-4c1e-9a44-0d2b6e8f1a73";
     events.json_Marshal := fun _ => events.Ok "{}";
     events.http_NewRequest := fun _ url =>
       if String.prefix ":" url then events.Err "missing protocol scheme"
       else events.Ok tt;
     events.client_Do := fun _ => events.Ok {| events.StatusCode := 200; events.Body := "ok" |};
     events.json_Decode := fun _ => events.Err "invalid character" |}.

(** The signal of scenario A. *)
Definition nginx_signal : detectors.IncidentSignal :=
  detectors.spike_signal d50 0 "cpu:default:nginx" (detectors.average nginx.2).

End sample.

(** ** Package [scheduler]: scheduler.go, the cycle *)

Module scheduler.

(** Modelled from the spec: the interface [metrics.Collector] and the
    constructor [metrics.NewCPUCollector] are not among the source
    files; the scheduler calls [Name()] and [Collect(ctx)] on a
    collector, and the spec gives [Collect] the result "a sequence of
    metrics or an error".  A collector is kept by its name; what its
    [Collect] answers in a cycle is part of [Runtime]. *)
Record Collector : Type := { collector_Name : string }.

(** [detectors.Detector]: the interface, with the one implementation
    the source files hold. *)
Inductive Detector : Type :=
| CPUSpike (d : detectors.CPUSpikeDetector).

Definition Detector_Name (det : Detector) : string :=
  match det with
  | CPUSpike d => detectors.Name d
  end.

Definition Detector_Detect (det : Detector) (now : detectors.Time)
    (visit : list (string * list float)) : option detectors.IncidentSignal * bool :=
  match det with
  | CPUSpike d => detectors.Detect d now visit
  end.

(** The fields of [Scheduler] the cycle reads.  The Kubernetes client,
    the context, its cancel function and the wait group belong to the
    goroutine's life cycle and are left out. *)
Record Scheduler : Type := {
  cfg : config.Config;
  collectors : list Collector;
  detectors_ : list Detector;
  publisher : events.Publisher
}.

(** [New], given the collector [metrics.NewCPUCollector(client)]
    builds. *)
Definition New (c : config.Config) (cpu_collector : Collector) : Scheduler :=
  {| cfg := c;
     collectors := [cpu_collector];
     detectors_ := [CPUSpike (detectors.NewCPUSpikeDetector 600%float)];
     publisher := events.NewPublisher c |}.

(** What the world outside the scheduler answers during one cycle: what
    the clock reads when the [i]-th detector calls [time.Now()] (each
    [Detect] reads the clock itself, after the [Publish] calls before
    it have returned), what each collector's [Collect] returns, the
    order in which the map range of the [i]-th detector visits the
    aggregated metrics, and the answers to the [Publish] call made for
    the [i]-th detector. *)
Record Runtime : Type := {
  now : nat -> detectors.Time;
  collect : Collector -> events.result (list metrics.Metric);
  range : nat -> detectors.SignalInput -> list (string * list float);
  world : nat -> events.World
}.

(** The map ranges of a runtime visit each entry once. *)
Definition ranges_maps (rt : Runtime) : Prop :=
  forall i input, Go.range_of (detectors.Metrics input) (range rt i input).

(** What a cycle does that can be observed: the lines it logs (without
    the times they carry) and the calls of [Publish], each with what it
    wrote to standard output. *)
Inductive event : Type :=
| LogExecuting
| LogCollectFailed (name cause : string)
| LogCollected (n : nat) (name : string)
| LogNoMetrics
| PublishCall (signal : detectors.IncidentSignal) (stdout : list string)
| LogPublishFailed (err : events.PublishError)
| LogPublished (type severity resource : string)
| LogCompleted.

(** How the cycle ends: it returns, or it reads a field of a nil signal
    (a detector answered [(nil, true)]) and panics. *)
Inductive ending : Type :=
| Returned
| NilSignal.

(** The first loop: every collector is asked in turn; a failure is
    logged and passed over, a success is logged and appended. *)
Fixpoint collect_loop (rt : Runtime) (cs : list Collector) (allMetrics : list metrics.Metric)
  : list event * list metrics.Metric :=
  match cs with
  | [] => ([], allMetrics)
  | collector :: rest =>
      match collect rt collector with
      | events.Err cause =>
          let r := collect_loop rt rest allMetrics in
          (LogCollectFailed (collector_Name collector) cause :: r.1, r.2)
      | events.Ok collected =>
          let r := collect_loop rt rest (allMetrics ++ collected) in
          (LogCollected (length collected) (collector_Name collector) :: r.1, r.2)
      end
  end.

(** The second loop, from the [i]-th detector on: a detector that does
    not match is passed over; a match is published, and the error or the
    success is logged. *)
Fixpoint detect_loop (rt : Runtime) (p : events.Publisher) (input : detectors.SignalInput)
    (i : nat) (ds : list Detector) : list event * ending :=
  match ds with
  | [] => ([LogCompleted], Returned)
  | det :: rest =>
      match Detector_Detect det (now rt i) (range rt i input) with
      | (_, false) => detect_loop rt p input (S i) rest
      | (None, true) => ([], NilSignal)
      | (Some signal, true) =>
          let published := events.Publish (world rt i) p signal in
          let r := detect_loop rt p input (S i) rest in
          match published.2 with
          | Some err =>
              (PublishCall signal published.1 :: LogPublishFailed err :: r.1, r.2)
          | None =>
              (PublishCall signal published.1
                 :: LogPublished (detectors.Type_ signal) (detectors.Severity_ signal)
                      (detectors.Resource signal)
                 :: r.1, r.2)
          end
      end
  end.

Definition executeCycle (rt : Runtime) (s : Scheduler) : list event * ending :=
  let gathered := collect_loop rt (collectors s) [] in
  match gathered.2 with
  | [] => (LogExecuting :: gathered.1 ++ [LogNoMetrics], Returned)
  | _ :: _ =>
      let AggregatedMetrics := metrics.AggregateMetrics gathered.2 in
      let r := detect_loop rt (publisher s) AggregatedMetrics 0 (detectors_ s) in
      (LogExecuting :: gathered.1 ++ r.1, r.2)
  end.

(** The signals a trace shows were handed to [Publish], in order. *)
Definition published (trace : list event) : list detectors.IncidentSignal :=
  omap (fun e => match e with PublishCall signal _ => Some signal | _ => None end) trace.

(** What a collector contributes to the cycle: its metrics, or nothing
    when it fails. *)
Definition contribution (rt : Runtime) (c : Collector) : list metrics.Metric :=
  match collect rt c with
  | events.Ok collected => collected
  | events.Err _ => []
  end.

End scheduler.

(** ** Notions used to state properties *)

Module notions.

(** The label a metric writes under [k], or else the one held before. *)
Definition overwrite (k : string) (held : option string) (m : metrics.Metric)
  : option string :=
  match Go.index (metrics.Labels m) k with
  | Some v => Some v
  | None => held
  end.

(** The signals of the detectors that match, from the [i]-th on, in
    the order of the detectors. *)
Fixpoint matched (rt : scheduler.Runtime) (input : detectors.SignalInput) (i : nat)
    (ds : list scheduler.Detector) : list detectors.IncidentSignal :=
  match ds with
  | [] => []
  | det :: rest =>
      match scheduler.Detector_Detect det (scheduler.now rt i) (scheduler.range rt i input) with
      | (Some signal, true) => signal :: matched rt input (S i) rest
      | _ => matched rt input (S i) rest
      end
  end.

(** The metrics a cycle gathers from its collectors. *)
Definition gathered (rt : scheduler.Runtime) (s : scheduler.Scheduler) : list metrics.Metric :=
  mjoin (scheduler.contribution rt <$> scheduler.collectors s).

(** A signal without the reading of the clock stamped into it. *)
Definition untimed (signal : detectors.IncidentSignal) : detectors.IncidentSignal :=
  {| detectors.ID := detectors.ID signal;
     detectors.Type_ := detectors.Type_ signal;
     detectors.Severity_ := detectors.Severity_ signal;
     detectors.Namespace := detectors.Namespace signal;
     detectors.Resource := detectors.Resource signal;
     detectors.Message := detectors.Message signal;
     detectors.Timestamp := 0;
     detectors.Metadata := detectors.Metadata signal |}.

End notions.

(** ** More sample data *)

Module fixture.

Definition cpu_collector : scheduler.Collector := {| scheduler.collector_Name := "cpu" |}.

(** A cycle in which the collector returns the four samples, the range
    follows the map's own order and the sink answers as in [world_ok]. *)
Definition busy : scheduler.Runtime :=
  {| scheduler.now := fun _ => 0;
     scheduler.collect := fun _ =>
       events.Ok [sample.nginx_1; sample.api_1; sample.nginx_2; sample.node_1];
     scheduler.range := fun _ input => map_to_list (Go.entries (detectors.Metrics input));
     scheduler.world := fun _ => sample.world_ok |}.

(** A cycle in which the collector fails. *)
Definition outage : scheduler.Runtime :=
  {| scheduler.now := fun _ => 0;
     scheduler.collect := fun _ => events.Err "metrics API unavailable";
     scheduler.range := fun _ input => map_to_list (Go.entries (detectors.Metrics input));
     scheduler.world := fun _ => sample.world_ok |}.

(** A scheduler with a detector of threshold 50.0 next to the one of
    [New]. *)
Definition two_detectors : scheduler.Scheduler :=
  {| scheduler.cfg := sample.cfg_default;
     scheduler.collectors := [cpu_collector];
     scheduler.detectors_ := [scheduler.CPUSpike sample.d50;
                              scheduler.CPUSpike (detectors.NewCPUSpikeDetector 600%float)];
     scheduler.publisher := events.NewPublisher sample.cfg_default |}.

(** An environment without variables, and parsers that are not
    reached. *)
Definition env_empty (key : string) : string := "".
Definition no_int (text : string) : option Z := None.
Definition no_float (text : string) : option float := None.

End fixture.

(** * Properties *)

(** ** [strings.Split]: the model splits at every separator and only there *)

Section SplitFacts.

Variable sep : ascii.

Lemma Split_not_nil (s : string) : Go.Split s sep <> [].
Proof.
  destruct s as [|c rest]; simpl; [discriminate|].
  destruct (Ascii.eqb c sep); [discriminate|].
  destruct (Go.Split rest sep); discriminate.
Qed.

Lemma Split_length (s : string) : length (Go.Split s sep) = S (Go.Count s sep).
Proof.
  induction s as [|c rest IH]; simpl; [reflexivity|].
  destruct (Ascii.eqb c sep); simpl.
  - now rewrite IH.
  - destruct (Go.Split rest sep) as [|part parts] eqn:E; simpl in *; congruence.
Qed.

Lemma Join_cons_String (c : ascii) (part : string) (parts : list string) :
  Go.Join (String c part :: parts) sep = String c (Go.Join (part :: parts) sep).
Proof. destruct parts; reflexivity. Qed.

Lemma Join_Split (s : string) : Go.Join (Go.Split s sep) sep = s.
Proof.
  induction s as [|c rest IH]; simpl; [reflexivity|].
  destruct (Ascii.eqb c sep) eqn:E.
  - apply Ascii.eqb_eq in E. subst c.
    destruct (Go.Split rest sep) as [|part parts] eqn:S.
    + now apply Split_not_nil in S.
    + simpl in *. now rewrite IH.
  - destruct (Go.Split rest sep) as [|part parts] eqn:S.
    + now apply Split_not_nil in S.
    + rewrite Join_cons_String. now rewrite IH.
Qed.

Lemma Split_parts_free (s : string) : Forall (Go.free_of sep) (Go.Split s sep).
Proof.
  induction s as [|c rest IH]; simpl.
  - repeat constructor.
  - destruct (Ascii.eqb c sep) eqn:E.
    + constructor; [reflexivity | exact IH].
    + destruct (Go.Split rest sep) as [|part parts].
      * repeat constructor. unfold Go.free_of. simpl. now rewrite E.
      * inversion IH as [|? ? Hp Hps]; subst. constructor; [|exact Hps].
        unfold Go.free_of in *. simpl. now rewrite E.
Qed.

Lemma free_of_String (c : ascii) (s : string) :
  Go.free_of sep (String c s) <-> Ascii.eqb c sep = false /\ Go.free_of sep s.
Proof.
  unfold Go.free_of. simpl. destruct (Ascii.eqb c sep); simpl; split.
  - discriminate.
  - intros [? _]. discriminate.
  - auto.
  - intros [_ ?]. assumption.
Qed.

Lemma Split_free (a : string) : Go.free_of sep a -> Go.Split a sep = [a].
Proof.
  induction a as [|c a IH]; intros H; simpl; [reflexivity|].
  apply free_of_String in H as [E H]. rewrite E, (IH H). reflexivity.
Qed.

Lemma Split_app_sep (a rest : string) :
  Go.free_of sep a -> Go.Split (a ++ String sep rest) sep = a :: Go.Split rest sep.
Proof.
  induction a as [|c a IH]; intros H; simpl.
  - now rewrite Ascii.eqb_refl.
  - apply free_of_String in H as [E H]. rewrite E, (IH H). reflexivity.
Qed.

End SplitFacts.

(** ** [parseKey] *)

Lemma parseKey_three (a b c : string) :
  Go.free_of ":" a -> Go.free_of ":" b -> Go.free_of ":" c ->
  detectors.parseKey (a ++ ":" ++ b ++ ":" ++ c)%string = (b, c).
Proof.
  intros Ha Hb Hc. unfold detectors.parseKey.
  change (a ++ ":" ++ b ++ ":" ++ c)%string
    with (a ++ String ":" (b ++ String ":" c))%string.
  rewrite (Split_app_sep ":" a _ Ha), (Split_app_sep ":" b _ Hb), (Split_free ":" c Hc).
  reflexivity.
Qed.

Lemma parseKey_two (a b : string) :
  Go.free_of ":" a -> Go.free_of ":" b ->
  detectors.parseKey (a ++ ":" ++ b)%string = ("", b).
Proof.
  intros Ha Hb. unfold detectors.parseKey.
  change (a ++ ":" ++ b)%string with (a ++ String ":" b)%string.
  rewrite (Split_app_sep ":" a _ Ha), (Split_free ":" b Hb).
  reflexivity.
Qed.

Lemma parseKey_other (key : string) :
  Go.Count key ":" <> 1%nat -> Go.Count key ":" <> 2%nat ->
  detectors.parseKey key = ("", "unknown").
Proof.
  intros H1 H2. unfold detectors.parseKey.
  pose proof (Split_length ":" key) as L.
  destruct (Go.Split key ":") as [|p0 [|p1 [|p2 [|p3 ps]]]]; simpl in L; try reflexivity;
    exfalso; lia.
Qed.

(** C8. The parts of a key are the substrings between its [":"] (joined
    by [":"] they give the key back, none of them holds a [":"], and
    there is one more part than there are [":"]); [parseKey] returns
    (second part, third part) for exactly three parts, ("", second part)
    for exactly two, and ("", "unknown") for any other number of parts;
    so "cpu:default:nginx" gives ("default", "nginx"), "cpu:nginx" gives
    ("", "nginx") and "bad" gives ("", "unknown"). *)
Theorem parseKey_by_parts (key : string) :
  let parts := Go.Split key ":" in
  Go.Join parts ":" = key /\
  Forall (Go.free_of ":") parts /\
  length parts = S (Go.Count key ":") /\
  (forall p0 p1 p2, parts = [p0; p1; p2] -> detectors.parseKey key = (p1, p2)) /\
  (forall p0 p1, parts = [p0; p1] -> detectors.parseKey key = ("", p1)) /\
  (length parts <> 3%nat -> length parts <> 2%nat ->
   detectors.parseKey key = ("", "unknown")) /\
  detectors.parseKey "cpu:default:nginx" = ("default", "nginx") /\
  detectors.parseKey "cpu:nginx" = ("", "nginx") /\
  detectors.parseKey "bad" = ("", "unknown").
Proof.
  intros parts. subst parts.
  split; [apply Join_Split|].
  split; [apply Split_parts_free|].
  split; [apply Split_length|].
  split; [|split; [|split]].
  - intros p0 p1 p2 E. unfold detectors.parseKey. now rewrite E.
  - intros p0 p1 E. unfold detectors.parseKey. now rewrite E.
  - intros H3 H2. apply parseKey_other; rewrite Split_length in H2, H3; lia.
  - repeat split; reflexivity.
Qed.

(** ** [ClassifySeverity] *)

(** The four severities are four different strings. *)
Lemma Severity_distinct :
  detectors.SeverityLow <> detectors.SeverityMedium /\
  detectors.SeverityLow <> detectors.SeverityHigh /\
  detectors.SeverityLow <> detectors.SeverityCritical /\
  detectors.SeverityMedium <> detectors.SeverityHigh /\
  detectors.SeverityMedium <> detectors.SeverityCritical /\
  detectors.SeverityHigh <> detectors.SeverityCritical.
Proof. repeat split; discriminate. Qed.

(** The product 50.0 * 1.1 in [float64] is the value just above 55.0. *)
Lemma product_50_by_1_1 :
  PrimFloat.mul 50%float 1.1%float = 0x1.b800000000001p+5%float /\
  PrimFloat.ltb 55%float (PrimFloat.mul 50%float 1.1%float) = true.
Proof. split; reflexivity. Qed.

(** The tie at 1.1 times the threshold is met or missed with the
    rounding of the product: the thresholds 50, 100 and 200 miss it,
    the thresholds 10, 20, 600 and 1000 meet it; the ties at 1.2 and
    1.5 times the threshold 50 are met. *)
Lemma medium_tie_depends_on_rounding :
  detectors.ClassifySeverity 110%float 100%float = detectors.SeverityLow /\
  detectors.ClassifySeverity 220%float 200%float = detectors.SeverityLow /\
  detectors.ClassifySeverity 11%float 10%float = detectors.SeverityMedium /\
  detectors.ClassifySeverity 22%float 20%float = detectors.SeverityMedium /\
  detectors.ClassifySeverity 660%float 600%float = detectors.SeverityMedium /\
  detectors.ClassifySeverity 1100%float 1000%float = detectors.SeverityMedium /\
  detectors.ClassifySeverity 60%float 50%float = detectors.SeverityHigh /\
  detectors.ClassifySeverity 75%float 50%float = detectors.SeverityCritical.
Proof. repeat split; reflexivity. Qed.

(** C2. The code at the failing input: with the threshold 50.0 the mean
    55.0 exceeds the threshold and lies exactly at 1.1 times the
    threshold, the inclusive cutoff of medium; the code returns low,
    because it compares 55.0 with the [float64] product [50.0*1.1],
    which is rounded to the value just above 55.0. *)
Lemma ClassifySeverity_55_is_low :
  PrimFloat.ltb 50%float 55%float = true /\
  detectors.ClassifySeverity 55%float 50%float = detectors.SeverityLow /\
  detectors.ClassifySeverity 55%float 50%float <> detectors.SeverityMedium.
Proof. split; [reflexivity | split; [reflexivity | discriminate]]. Qed.

(** The bands as the code computes them: for every mean [m] and
    threshold [t] the result is critical when [m >= t*1.5], else high
    when [m >= t*1.2], else medium when [m >= t*1.1], else low, each
    product being the [float64] product; with the rows this gives for
    the threshold 50.0. *)
Theorem ClassifySeverity_bands (m t : float) :
  let ge (c : float) := PrimFloat.leb (PrimFloat.mul t c) m in
  (ge 1.5%float = true ->
   detectors.ClassifySeverity m t = detectors.SeverityCritical) /\
  (ge 1.5%float = false -> ge 1.2%float = true ->
   detectors.ClassifySeverity m t = detectors.SeverityHigh) /\
  (ge 1.5%float = false -> ge 1.2%float = false -> ge 1.1%float = true ->
   detectors.ClassifySeverity m t = detectors.SeverityMedium) /\
  (ge 1.5%float = false -> ge 1.2%float = false -> ge 1.1%float = false ->
   detectors.ClassifySeverity m t = detectors.SeverityLow) /\
  detectors.ClassifySeverity 50.01%float 50%float = detectors.SeverityLow /\
  detectors.ClassifySeverity 55%float 50%float = detectors.SeverityLow /\
  detectors.ClassifySeverity (PrimFloat.mul 50%float 1.1%float) 50%float
    = detectors.SeverityMedium /\
  detectors.ClassifySeverity 60%float 50%float = detectors.SeverityHigh /\
  detectors.ClassifySeverity 75%float 50%float = detectors.SeverityCritical.
Proof.
  intros ge. subst ge. unfold detectors.ClassifySeverity.
  repeat split; try reflexivity.
  - intros ->. reflexivity.
  - intros -> ->. reflexivity.
  - intros -> -> ->. reflexivity.
  - intros -> -> ->. reflexivity.
Qed.

(** ** [Detect]: the first breaching entry of the visiting order decides *)

Section DetectFacts.

Variable d : detectors.CPUSpikeDetector.

Lemma breaches_unfold (key : string) (values : list float) :
  detectors.breaches d (key, values)
  = Go.HasPrefix key "cpu:" && PrimFloat.ltb (detectors.Threshold d) (detectors.average values).
Proof. reflexivity. Qed.

(** One turn of the loop: an entry that does not breach is passed over. *)
Lemma Detect_skip (now : detectors.Time) (entry : string * list float)
    (rest : list (string * list float)) :
  detectors.breaches d entry = false ->
  detectors.Detect d now (entry :: rest) = detectors.Detect d now rest.
Proof.
  destruct entry as [key values]. unfold detectors.breaches. simpl.
  destruct (Go.HasPrefix key "cpu:"); simpl; [|reflexivity].
  now intros ->.
Qed.

(** One turn of the loop: a breaching entry returns at once. *)
Lemma Detect_hit (now : detectors.Time) (key : string) (values : list float)
    (rest : list (string * list float)) :
  detectors.breaches d (key, values) = true ->
  detectors.Detect d now ((key, values) :: rest)
  = (Some (detectors.spike_signal d now key (detectors.average values)), true).
Proof.
  unfold detectors.breaches. simpl.
  destruct (Go.HasPrefix key "cpu:"); simpl; [|discriminate].
  now intros ->.
Qed.

Lemma Detect_find (now : detectors.Time) (visit : list (string * list float)) :
  detectors.Detect d now visit =
  match List.find (detectors.breaches d) visit with
  | Some (key, values) =>
      (Some (detectors.spike_signal d now key (detectors.average values)), true)
  | None => (None, false)
  end.
Proof.
  induction visit as [|[key values] rest IH]; [reflexivity|].
  cbn [List.find]. destruct (detectors.breaches d (key, values)) eqn:B.
  - now apply Detect_hit.
  - rewrite Detect_skip by exact B. exact IH.
Qed.

Lemma Detect_no_breach (now : detectors.Time) (visit : list (string * list float)) :
  Forall (fun e => detectors.breaches d e = false) visit ->
  detectors.Detect d now visit = (None, false).
Proof.
  induction 1 as [|entry rest B _ IH]; [reflexivity|].
  now rewrite Detect_skip.
Qed.


(** The flag says whether some visited entry breaches. *)
Lemma Detect_found (now : detectors.Time) (visit : list (string * list float)) :
  (detectors.Detect d now visit).2 = existsb (detectors.breaches d) visit.
Proof.
  induction visit as [|[key values] rest IH]; [reflexivity|].
  cbn [existsb]. destruct (detectors.breaches d (key, values)) eqn:B.
  - now rewrite Detect_hit.
  - rewrite Detect_skip by exact B. exact IH.
Qed.

Lemma existsb_Permutation {A : Type} (p : A -> bool) (l1 l2 : list A) :
  l1 ≡ₚ l2 -> existsb p l1 = existsb p l2.
Proof.
  induction 1 as [|x l1 l2 _ IH|x y l|l1 l2 l3 _ IH1 _ IH2]; simpl.
  - reflexivity.
  - now rewrite IH.
  - destruct (p x), (p y); reflexivity.
  - congruence.
Qed.

(** When at most one element satisfies [p], every order finds the same. *)
Lemma find_Permutation_unique {A : Type} (p : A -> bool) (l1 l2 : list A) :
  l1 ≡ₚ l2 ->
  (forall x y, x ∈ l1 -> y ∈ l1 -> p x = true -> p y = true -> x = y) ->
  List.find p l1 = List.find p l2.
Proof.
  intros P U.
  destruct (List.find p l1) as [x|] eqn:F1; destruct (List.find p l2) as [y|] eqn:F2.
  - apply List.find_some in F1 as [I1 P1]. apply List.find_some in F2 as [I2 P2].
    apply list_elem_of_In in I1, I2. rewrite <- P in I2.
    f_equal. now apply U.
  - apply List.find_some in F1 as [I1 P1].
    pose proof (List.find_none _ _ F2 x) as N.
    apply list_elem_of_In in I1. rewrite P in I1. apply list_elem_of_In in I1.
    rewrite (N I1) in P1. discriminate.
  - apply List.find_some in F2 as [I2 P2].
    pose proof (List.find_none _ _ F1 y) as N.
    apply list_elem_of_In in I2. rewrite <- P in I2. apply list_elem_of_In in I2.
    rewrite (N I2) in P2. discriminate.
  - reflexivity.
Qed.

End DetectFacts.

(** The entries of a map built from a list without repeated keys can be
    ranged over in the order of that list. *)
Lemma range_of_list_to_map {V : Type} (l : list (string * V)) :
  NoDup l.*1 -> Go.range_of (Some (list_to_map l)) l.
Proof.
  intros H. unfold Go.range_of, Go.entries. simpl.
  symmetry. now apply map_to_list_to_map.
Qed.

Lemma range_of_Permutation {V : Type} (m : Go.map V) (v1 v2 : list (string * V)) :
  Go.range_of m v1 -> v1 ≡ₚ v2 -> Go.range_of m v2.
Proof. unfold Go.range_of. intros H P. now rewrite <- P. Qed.

(** What a range visits is what the map holds. *)
Lemma range_of_index {V : Type} (m : Go.map V) (visit : list (string * V))
    (key : string) (value : V) :
  Go.range_of m visit -> ((key, value) ∈ visit <-> Go.index m key = Some value).
Proof.
  unfold Go.range_of, Go.index. intros ->. apply elem_of_map_to_list.
Qed.

(** A range visits no key twice. *)
Lemma range_of_NoDup {V : Type} (m : Go.map V) (visit : list (string * V)) :
  Go.range_of m visit -> NoDup visit.*1.
Proof.
  unfold Go.range_of. intros ->. apply NoDup_fst_map_to_list.
Qed.


Lemma sample_two_spikes_range :
  Go.range_of (detectors.Metrics sample.two_spikes)
    [sample.nginx; sample.api; sample.db_memory].
Proof.
  apply range_of_list_to_map. apply (bool_decide_unpack _). vm_compute. exact I.
Qed.

Lemma sample_one_spike_range :
  Go.range_of (detectors.Metrics sample.one_spike) [sample.db_memory; sample.nginx].
Proof.
  apply range_of_list_to_map. apply (bool_decide_unpack _). vm_compute. exact I.
Qed.


(** The signal of scenario A: critical, namespace "default", resource
    "nginx", with the mean and the threshold printed to two decimals. *)
Lemma scenario_A_signal :
  detectors.Detect sample.d50 0 [sample.db_memory; sample.nginx]
  = (Some {| detectors.ID := "";
             detectors.Type_ := "cpu_spike";
             detectors.Severity_ := "critical";
             detectors.Namespace := "default";
             detectors.Resource := "nginx";
             detectors.Message :=
               "CPU spike detected: average usage 95.37 millicores exceeds threshold 50.00";
             detectors.Timestamp := 0;
             detectors.Metadata :=
               Some (<["threshold_millicores" := "50.00"]>
                       (<["average_cpu_millicores" := "95.37"]> ∅)) |}, true).
Proof. reflexivity. Qed.

(** ** [Detect]: shape of the result *)

Lemma spike_signal_Type (d : detectors.CPUSpikeDetector) (now : detectors.Time)
    (key : string) (avg : float) :
  detectors.Type_ (detectors.spike_signal d now key avg) = detectors.SignalCPUSpike.
Proof. unfold detectors.spike_signal. now destruct (detectors.parseKey key). Qed.

Lemma spike_signal_Metadata (d : detectors.CPUSpikeDetector) (now : detectors.Time)
    (key : string) (avg : float) :
  detectors.Metadata (detectors.spike_signal d now key avg)
  = Some (<["threshold_millicores" := Go.Sprintf_2f (detectors.Threshold d)]>
            (<["average_cpu_millicores" := Go.Sprintf_2f avg]> ∅)).
Proof. unfold detectors.spike_signal. now destruct (detectors.parseKey key). Qed.

(** C10. For every input and every order in which the range visits its
    keys, [Detect] returns either (nil, false) or a signal together with
    true; that signal has the type cpu_spike and a non-nil metadata map
    holding the mean under "average_cpu_millicores" and the threshold
    under "threshold_millicores". *)
Theorem Detect_well_formed (d : detectors.CPUSpikeDetector) (now : detectors.Time)
    (input : detectors.SignalInput) (visit : list (string * list float)) :
  Go.range_of (detectors.Metrics input) visit ->
  detectors.Detect d now visit = (None, false) \/
  exists signal metadata,
    detectors.Detect d now visit = (Some signal, true) /\
    detectors.Type_ signal = detectors.SignalCPUSpike /\
    detectors.Metadata signal = Some metadata /\
    is_Some (metadata !! "average_cpu_millicores") /\
    is_Some (metadata !! "threshold_millicores").
Proof.
  intros _. rewrite Detect_find.
  destruct (List.find (detectors.breaches d) visit) as [[key values]|]; [right | now left].
  eexists _, _. split; [reflexivity|].
  split; [apply spike_signal_Type|].
  split; [apply spike_signal_Metadata|].
  split.
  - rewrite lookup_insert_ne by discriminate. rewrite lookup_insert_eq. eauto.
  - rewrite lookup_insert_eq. eauto.
Qed.

(** C10 run on the sample with one spike. *)
Lemma Detect_well_formed_witness :
  detectors.Detect sample.d50 0 [sample.db_memory; sample.nginx] = (None, false) \/
  exists signal metadata,
    detectors.Detect sample.d50 0 [sample.db_memory; sample.nginx] = (Some signal, true) /\
    detectors.Type_ signal = detectors.SignalCPUSpike /\
    detectors.Metadata signal = Some metadata /\
    is_Some (metadata !! "average_cpu_millicores") /\
    is_Some (metadata !! "threshold_millicores").
Proof.
  exact (Detect_well_formed sample.d50 0 sample.one_spike
           [sample.db_memory; sample.nginx] sample_one_spike_range).
Defined.

(** ** [Detect]: what is and what is not determined by the input *)

(** C3, as the spec states it, fails: the two cpu keys of the sample
    both exceed the threshold, the range may visit them in either order,
    and with the same clock reading the two orders return different
    signals (one for nginx, one for api). *)
Lemma Detect_depends_on_range_order :
  Go.range_of (detectors.Metrics sample.two_spikes)
    [sample.nginx; sample.api; sample.db_memory] /\
  Go.range_of (detectors.Metrics sample.two_spikes)
    [sample.api; sample.nginx; sample.db_memory] /\
  detectors.Resource <$>
    (detectors.Detect sample.d50 0 [sample.nginx; sample.api; sample.db_memory]).1
  = Some "nginx" /\
  detectors.Resource <$>
    (detectors.Detect sample.d50 0 [sample.api; sample.nginx; sample.db_memory]).1
  = Some "api" /\
  detectors.Detect sample.d50 0 [sample.nginx; sample.api; sample.db_memory]
  <> detectors.Detect sample.d50 0 [sample.api; sample.nginx; sample.db_memory].
Proof.
  split; [exact sample_two_spikes_range|].
  split; [apply (range_of_Permutation _ _ _ sample_two_spikes_range); apply perm_swap|].
  split; [reflexivity|]. split; [reflexivity|].
  intros E.
  apply (f_equal (fun r => detectors.Resource <$> r.1)) in E.
  vm_compute in E. discriminate E.
Qed.

(** The clock reading is part of the signal. *)
Lemma Detect_depends_on_clock :
  detectors.Detect sample.d50 0 [sample.nginx] <> detectors.Detect sample.d50 1 [sample.nginx].
Proof.
  intros E. apply (f_equal (fun r => detectors.Timestamp <$> r.1)) in E.
  vm_compute in E. discriminate E.
Qed.

(** C3, amended. For every input and threshold, any two invocations
    return the same found flag, whatever the orders in which the range
    visits the keys and whatever the clock reads; they return the same
    (signal, found) pair when the clock reads the same and the range
    visits the keys in the same order, or when the clock reads the same
    and at most one key of the input breaches the threshold. *)
Theorem Detect_determined (d : detectors.CPUSpikeDetector) (input : detectors.SignalInput)
    (now1 now2 : detectors.Time) (visit1 visit2 : list (string * list float)) :
  Go.range_of (detectors.Metrics input) visit1 ->
  Go.range_of (detectors.Metrics input) visit2 ->
  (detectors.Detect d now1 visit1).2 = (detectors.Detect d now2 visit2).2 /\
  (now1 = now2 -> visit1 = visit2 ->
   detectors.Detect d now1 visit1 = detectors.Detect d now2 visit2) /\
  (now1 = now2 ->
   (forall key1 values1 key2 values2,
      Go.index (detectors.Metrics input) key1 = Some values1 ->
      Go.index (detectors.Metrics input) key2 = Some values2 ->
      detectors.breaches d (key1, values1) = true ->
      detectors.breaches d (key2, values2) = true -> key1 = key2) ->
   detectors.Detect d now1 visit1 = detectors.Detect d now2 visit2).
Proof.
  intros R1 R2.
  assert (visit1 ≡ₚ visit2) as P.
  { unfold Go.range_of in *. now rewrite R1, R2. }
  split; [|split].
  - rewrite !Detect_found. now apply existsb_Permutation.
  - now intros -> ->.
  - intros -> U. rewrite !Detect_find.
    rewrite (find_Permutation_unique (detectors.breaches d) visit1 visit2 P); [reflexivity|].
    intros [key1 values1] [key2 values2] I1 I2 B1 B2.
    apply (range_of_index _ _ _ _ R1) in I1, I2.
    assert (key1 = key2) as -> by now apply (U key1 values1 key2 values2).
    congruence.
Qed.

(** C3's amended statement run on the sample with one spike, visited in
    its two orders. *)
Lemma Detect_determined_witness :
  detectors.Detect sample.d50 0 [sample.db_memory; sample.nginx]
  = detectors.Detect sample.d50 0 [sample.nginx; sample.db_memory].
Proof.
  destruct (Detect_determined sample.d50 sample.one_spike 0 0
              [sample.db_memory; sample.nginx] [sample.nginx; sample.db_memory]
              sample_one_spike_range
              (range_of_Permutation _ _ _ sample_one_spike_range (perm_swap _ _ _)))
    as (_ & _ & Unique).
  apply Unique; [reflexivity|].
  intros key1 values1 key2 values2 I1 I2 B1 B2.
  apply (range_of_index _ _ _ _ sample_one_spike_range) in I1, I2.
  assert (forall key values,
            (key, values) ∈ [sample.db_memory; sample.nginx] ->
            detectors.breaches sample.d50 (key, values) = true ->
            key = "cpu:default:nginx") as Only.
  { intros key values In B.
    apply elem_of_cons in In as [E|In].
    - rewrite E in B. vm_compute in B. discriminate B.
    - apply list_elem_of_singleton in In. now inversion In. }
  rewrite (Only _ _ I1 B1), (Only _ _ I2 B2). reflexivity.
Defined.

(** ** [AggregateMetrics] *)

(** Writing the labels of a metric entry by entry is the union that
    prefers them to the labels merged so far. *)
Lemma merge_labels_union (labels : gmap string string) (ml : Go.map string) :
  metrics.merge_labels labels ml = Go.entries ml ∪ labels.
Proof.
  unfold metrics.merge_labels. generalize (Go.entries ml) as m. intros m.
  induction m as [|k v m Fresh IH] using map_ind.
  - now rewrite map_fold_empty, (left_id_L ∅ (∪)).
  - rewrite map_fold_insert_L; [| |exact Fresh].
    + now rewrite IH, insert_union_l.
    + intros j1 j2 z1 z2 y Ne _ _. now apply insert_insert_ne.
Qed.

(** The order in which the range visits the labels of a metric does not
    matter to the merge: writing them in any visiting order gives the
    same map. *)
Lemma merge_labels_any_order (labels : gmap string string) (ml : Go.map string)
    (visit : list (string * string)) :
  Go.range_of ml visit ->
  fold_left (fun acc e => <[e.1 := e.2]> acc) visit labels = metrics.merge_labels labels ml.
Proof.
  unfold Go.range_of, metrics.merge_labels. intros R.
  rewrite map_fold_foldr, <- fold_left_rev_right.
  assert (rev visit ≡ₚ map_to_list (Go.entries ml)) as R'.
  { now rewrite <- R, <- Permutation_rev. }
  assert (NoDup (rev visit).*1) as ND by (rewrite R'; apply NoDup_fst_map_to_list).
  transitivity (foldr (fun e acc => <[e.1 := e.2]> acc) labels (map_to_list (Go.entries ml))).
  - apply (foldr_permutation (=) (fun e acc => <[e.1 := e.2]> acc) labels); [|exact R'].
    intros j1 [k1 v1] j2 [k2 v2] acc Ne L1 L2. cbn [fst snd].
    apply insert_insert_ne. intros ->.
    apply Ne. eapply NoDup_lookup; [exact ND| |];
      rewrite list_lookup_fmap; [rewrite L1 | rewrite L2]; reflexivity.
  - clear R R' ND.
    induction (map_to_list (Go.entries ml)) as [|[k v] l IH]; [reflexivity|].
    cbn [foldr uncurry fst snd]. f_equal. exact IH.
Qed.

Lemma values_of_cons (k : string) (m : metrics.Metric) (ms : list metrics.Metric) :
  metrics.values_of k (m :: ms)
  = if decide (metrics.buildMetricKey m = k)
    then metrics.Value m :: metrics.values_of k ms
    else metrics.values_of k ms.
Proof.
  unfold metrics.values_of. rewrite filter_cons. now destruct decide.
Qed.

(** The loop, started on any [aggregated]: a key keeps what it held and
    gains the values of its metrics, in input order. *)
Lemma aggregate_fold_lookup (ms : list metrics.Metric)
    (st : gmap string (list float) * gmap string string) (k : string) :
  (fold_left metrics.aggregate_step ms st).1 !! k
  = match metrics.values_of k ms with
    | [] => st.1 !! k
    | vs => Some (default [] (st.1 !! k) ++ vs)
    end.
Proof.
  revert st. induction ms as [|m ms IH]; intros st; [reflexivity|].
  cbn [fold_left]. rewrite IH, values_of_cons.
  unfold metrics.aggregate_step, metrics.append_at. cbn [fst].
  destruct decide as [<-|Ne].
  - rewrite lookup_insert_eq.
    destruct (metrics.values_of _ ms); [reflexivity|].
    simpl. now rewrite <- app_assoc.
  - now rewrite lookup_insert_ne.
Qed.

Lemma AggregateMetrics_lookup (ms : list metrics.Metric) (k : string) :
  Go.index (detectors.Metrics (metrics.AggregateMetrics ms)) k
  = match metrics.values_of k ms with
    | [] => None
    | vs => Some vs
    end.
Proof.
  unfold Go.index, Go.entries, metrics.AggregateMetrics.
  cbv zeta. cbn [detectors.Metrics default from_option id].
  rewrite aggregate_fold_lookup. cbn [fst]. rewrite lookup_empty.
  now destruct (metrics.values_of k ms).
Qed.

(** C7. For every sequence of metrics the result holds two non-nil
    maps; the value sequence of a key is the sequence of the values of
    the metrics with that key, in the order of the input (a subsequence
    of the input's values), and a key of no metric is absent; for the
    empty input both maps are empty and non-nil.  The function is a
    total function of its argument: it returns a new value and changes
    nothing. *)
Theorem AggregateMetrics_appends_in_order (ms : list metrics.Metric) :
  (exists aggregated labels,
     metrics.AggregateMetrics ms
     = {| detectors.Metrics := Some aggregated; detectors.Labels := Some labels |}) /\
  (forall k,
     Go.index (detectors.Metrics (metrics.AggregateMetrics ms)) k
     = match metrics.Value <$> filter (fun m => metrics.buildMetricKey m = k) ms with
       | [] => None
       | vs => Some vs
       end) /\
  (forall k, metrics.values_of k ms `sublist_of` (metrics.Value <$> ms)) /\
  metrics.AggregateMetrics []
  = {| detectors.Metrics := Some ∅; detectors.Labels := Some ∅ |}.
Proof.
  split; [|split; [|split]].
  - eexists _, _. reflexivity.
  - intros k. apply AggregateMetrics_lookup.
  - intros k. unfold metrics.values_of. apply fmap_sublist, sublist_filter.
  - reflexivity.
Qed.

(** ** [buildMetricKey] and the (kind, namespace, resource) triple *)

(** The parts of the key of a metric whose components hold no [":"]. *)
Lemma Split_buildMetricKey (m : metrics.Metric) :
  metrics.colon_free m ->
  Go.Split (metrics.buildMetricKey m) ":"
  = if String.eqb (metrics.Namespace m) ""
    then [metrics.Type_ m; metrics.Resource m]
    else [metrics.Type_ m; metrics.Namespace m; metrics.Resource m].
Proof.
  intros (Ht & Hn & Hr). unfold metrics.buildMetricKey.
  destruct (String.eqb (metrics.Namespace m) ""); cbn [negb].
  - change (metrics.Type_ m ++ ":" ++ metrics.Resource m)%string
      with (metrics.Type_ m ++ String ":" (metrics.Resource m))%string.
    now rewrite (Split_app_sep ":" _ _ Ht), (Split_free ":" _ Hr).
  - change (metrics.Type_ m ++ ":" ++ metrics.Namespace m ++ ":" ++ metrics.Resource m)%string
      with (metrics.Type_ m ++ String ":"
              (metrics.Namespace m ++ String ":" (metrics.Resource m)))%string.
    now rewrite (Split_app_sep ":" _ _ Ht), (Split_app_sep ":" _ _ Hn), (Split_free ":" _ Hr).
Qed.


(** The key of a metric without [":"] in its components parses back to
    its namespace and resource. *)
Lemma parseKey_buildMetricKey (m : metrics.Metric) :
  metrics.colon_free m ->
  detectors.parseKey (metrics.buildMetricKey m) = (metrics.Namespace m, metrics.Resource m).
Proof.
  intros C. unfold detectors.parseKey. rewrite (Split_buildMetricKey m C).
  destruct (String.eqb (metrics.Namespace m) "") eqn:N; [|reflexivity].
  apply String.eqb_eq in N. now rewrite N.
Qed.






Lemma sample_colon_free :
  Forall metrics.colon_free [sample.nginx_1; sample.api_1; sample.nginx_2; sample.node_1].
Proof. repeat constructor. Qed.


(** The aggregation of the four samples, key by key. *)
Lemma sample_aggregation :
  let input := metrics.AggregateMetrics
                 [sample.nginx_1; sample.api_1; sample.nginx_2; sample.node_1] in
  Go.index (detectors.Metrics input) "cpu:default:nginx" = Some [95.2%float; 96.1%float] /\
  Go.index (detectors.Metrics input) "cpu:default:api" = Some [12%float] /\
  Go.index (detectors.Metrics input) "cpu:node" = Some [400%float] /\
  Go.index (detectors.Labels input) "app" = Some "nginx".
Proof. repeat split; vm_compute; reflexivity. Qed.

(** ** [Publish] *)

Lemma not_2xx_test (code : Z) :
  ((code <? 200) || (300 <=? code))%Z = true <-> ~ events.is_2xx code.
Proof. unfold events.is_2xx. rewrite orb_true_iff, Z.ltb_lt, Z.leb_le. lia. Qed.

(** C4, as the spec states it, fails: with a sink address that has no
    scheme the request cannot be built, [Publish] returns an error, and
    no HTTP exchange took place: there was neither a transport error nor
    a status outside 2xx. *)
Lemma Publish_error_without_exchange :
  events.Publish sample.world_ok sample.publisher_no_scheme sample.nginx_signal
  = ([], Some (events.RequestFailed "missing protocol scheme")) /\
  ~ events.transport_error sample.world_ok sample.publisher_no_scheme sample.nginx_signal /\
  ~ events.status_error sample.world_ok sample.publisher_no_scheme sample.nginx_signal.
Proof.
  split; [reflexivity|]. split.
  - intros (body & cause & _ & Req & _). discriminate Req.
  - intros (resp & (body & _ & Req & _) & _). discriminate Req.
Qed.

(** C4, amended. [Publish] returns an error if and only if the event
    cannot be marshalled, the request cannot be built, the HTTP exchange
    fails in transport, or the response status is outside 2xx; when the
    exchange completes with a 2xx status it returns nil, whether or not
    the body decodes, and a body that does not decode only changes what
    is printed. *)
Theorem Publish_error_iff (w : events.World) (p : events.Publisher)
    (signal : detectors.IncidentSignal) :
  (is_Some (events.Publish w p signal).2 <->
     (exists cause, events.json_Marshal w (events.event_of w p signal) = events.Err cause) \/
     (exists body cause,
        events.json_Marshal w (events.event_of w p signal) = events.Ok body /\
        events.http_NewRequest w "POST" (events.sinkURL p) = events.Err cause) \/
     events.transport_error w p signal \/
     events.status_error w p signal) /\
  (forall resp,
     events.exchange_completes w p signal resp ->
     events.is_2xx (events.StatusCode resp) ->
     (events.Publish w p signal).2 = None) /\
  (forall resp cause,
     events.exchange_completes w p signal resp ->
     events.is_2xx (events.StatusCode resp) ->
     events.json_Decode w (events.Body resp) = events.Err cause ->
     events.Publish w p signal = ([events.non_json_response], None)).
Proof.
  unfold events.transport_error, events.status_error, events.exchange_completes,
    events.Publish.
  destruct (events.json_Marshal w (events.event_of w p signal)) as [body|mcause] eqn:M.
  2:{ split; [|split].
      - split; [eauto|]. intros _. cbn. eauto.
      - intros resp (body & [=] & _).
      - intros resp cause (body & [=] & _). }
  destruct (events.http_NewRequest w "POST" (events.sinkURL p)) as [[]|rcause] eqn:R.
  2:{ split; [|split].
      - split; [intros _; right; left; eauto|]. intros _. cbn. eauto.
      - intros resp (body' & _ & [=] & _).
      - intros resp cause (body' & _ & [=] & _). }
  destruct (events.client_Do w (events.request_of p body)) as [resp|dcause] eqn:D.
  2:{ split; [|split].
      - split; [intros _; right; right; left; eauto|]. intros _. cbn. eauto.
      - intros resp (body' & [= <-] & _ & D'). rewrite D in D'. discriminate D'.
      - intros resp cause (body' & [= <-] & _ & D'). rewrite D in D'. discriminate D'. }
  destruct ((events.StatusCode resp <? 200) || (300 <=? events.StatusCode resp))%Z eqn:S.
  - apply not_2xx_test in S. split; [|split].
    + split; [|intros _; cbn; eauto].
      intros _. right; right; right. exists resp. split; [exists body; auto | exact S].
    + intros resp' (body' & [= <-] & _ & D') Ok2. rewrite D in D'. inversion D'; subst.
      contradiction.
    + intros resp' cause (body' & [= <-] & _ & D') Ok2. rewrite D in D'. inversion D'; subst.
      contradiction.
  - assert (events.is_2xx (events.StatusCode resp)) as Good.
    { unfold events.is_2xx. apply orb_false_iff in S as [S1 S2].
      apply Z.ltb_ge in S1. apply Z.leb_gt in S2. lia. }
    assert ((match events.json_Decode w (events.Body resp) with
             | events.Ok (decision, message) =>
                 (events.agent_response decision message, None)
             | events.Err _ => ([events.non_json_response], None)
             end).2 = @None events.PublishError) as NoErr.
    { destruct (events.json_Decode w (events.Body resp)) as [[decision message]|]; reflexivity. }
    split; [|split].
    + rewrite NoErr. split; [intros [? [=]]|].
      intros [(cause & [=]) | [(body' & cause & _ & [=]) | [(body' & cause & [= <-] & _ & D')
        | (resp' & (body' & [= <-] & _ & D') & Bad)]]].
      * rewrite D in D'. discriminate D'.
      * rewrite D in D'. inversion D'; subst. contradiction.
    + intros resp' _ _. exact NoErr.
    + intros resp' cause (body' & [= <-] & _ & D') _ Dec. rewrite D in D'.
      inversion D'; subst. now rewrite Dec.
Qed.

(** ** [validate] and [Load] *)

(** A [float64] above zero does not compare [<= 0]. *)
Lemma positive_not_leb_0 (t : float) :
  PrimFloat.ltb 0%float t = true -> PrimFloat.leb t 0%float = false.
Proof.
  rewrite FloatAxioms.ltb_spec, FloatAxioms.leb_spec.
  unfold SFltb, SFleb. change (Prim2SF 0%float) with (S754_zero false).
  destruct (Prim2SF t) as [s|s| |s m e]; simpl; try discriminate;
    destruct s; simpl; try discriminate; reflexivity.
Qed.

(** Taken as a function of any configuration, [validate] also refuses
    an empty HTTP port; [Load], its only caller, never hands it one
    ([Load_defaults]). *)
Lemma validate_refuses_empty_port :
  config.EventSinkURL sample.cfg_no_port <> "" /\
  (0 < config.PollInterval sample.cfg_no_port)%Z /\
  (0 < config.EventTimeout sample.cfg_no_port)%Z /\
  PrimFloat.ltb 0%float (config.CPUThreshold sample.cfg_no_port) = true /\
  config.validate sample.cfg_no_port = config.Fatal "HTTP_PORT is required".
Proof. repeat split; discriminate. Qed.

(** A threshold that is not a number is neither [<= 0] nor [> 0]:
    [validate] lets it pass, and no mean ever exceeds it. *)
Lemma validate_accepts_nan_threshold :
  PrimFloat.ltb 0%float (config.CPUThreshold sample.cfg_nan_threshold) = false /\
  config.validate sample.cfg_nan_threshold = config.Returns tt /\
  forall avg, PrimFloat.ltb PrimFloat.nan avg = false.
Proof.
  split; [reflexivity|]. split; [reflexivity|].
  intros avg. rewrite FloatAxioms.ltb_spec. reflexivity.
Qed.

(** With CPU_THRESHOLD=NaN in the environment, [Load] returns the
    defaults with a NaN threshold. *)
Lemma Load_accepts_nan_threshold :
  config.Load sample.env_nan_threshold (fun _ => None) sample.parse_nan
  = config.Returns sample.cfg_nan_threshold.
Proof. reflexivity. Qed.

(** [Load] never leaves the HTTP port or the sink address empty: an
    unset or empty variable takes its default. *)
Lemma Load_defaults (Getenv : string -> string) (Atoi : string -> option Z)
    (ParseFloat : string -> option float) (cfg : config.Config) :
  config.Load Getenv Atoi ParseFloat = config.Returns cfg ->
  config.HTTPPort cfg <> "" /\ config.EventSinkURL cfg <> "".
Proof.
  unfold config.Load, config.bind.
  destruct (config.getDurationEnv _ _ _ _) as [|poll]; [discriminate|].
  destruct (config.getDurationEnv _ _ _ _) as [|timeout]; [discriminate|].
  destruct (config.getFloatEnv _ _ _ _) as [|threshold]; [discriminate|].
  destruct (config.validate _); [discriminate|].
  intros [= <-]. cbn [config.HTTPPort config.EventSinkURL]. unfold config.getenv.
  split.
  - destruct (String.eqb (Getenv "HTTP_PORT") "") eqn:E; [discriminate|].
    now apply String.eqb_neq in E.
  - destruct (String.eqb (Getenv "EVENT_SINK_URL") "") eqn:E; [discriminate|].
    now apply String.eqb_neq in E.
Qed.

(** The five checks of [validate]: it ends the process whenever the
    sink address is empty, the poll interval is [<= 0], the timeout is
    [<= 0], the HTTP port is empty or the threshold compares [<= 0]; it
    returns when the sink address and the HTTP port are not empty and
    the interval, the timeout and the threshold are [> 0]; and [Load]
    returns a configuration only after [validate] has returned on it. *)
Theorem validate_checks (cfg : config.Config) :
  (config.EventSinkURL cfg = "" \/
   (config.PollInterval cfg <= 0)%Z \/
   (config.EventTimeout cfg <= 0)%Z \/
   config.HTTPPort cfg = "" \/
   PrimFloat.leb (config.CPUThreshold cfg) 0%float = true ->
   exists msg, config.validate cfg = config.Fatal msg) /\
  (config.EventSinkURL cfg <> "" ->
   (0 < config.PollInterval cfg)%Z ->
   (0 < config.EventTimeout cfg)%Z ->
   config.HTTPPort cfg <> "" ->
   PrimFloat.ltb 0%float (config.CPUThreshold cfg) = true ->
   config.validate cfg = config.Returns tt) /\
  (forall Getenv Atoi ParseFloat,
     config.Load Getenv Atoi ParseFloat = config.Returns cfg ->
     config.validate cfg = config.Returns tt).
Proof.
  unfold config.validate. split; [|split].
  - intros Bad.
    destruct (String.eqb (config.EventSinkURL cfg) "") eqn:U; [eauto|].
    destruct (config.PollInterval cfg <=? 0)%Z eqn:P; [eauto|].
    destruct (config.EventTimeout cfg <=? 0)%Z eqn:T; [eauto|].
    destruct (String.eqb (config.HTTPPort cfg) "") eqn:H; [eauto|].
    destruct (PrimFloat.leb (config.CPUThreshold cfg) 0%float) eqn:C; [eauto|].
    apply String.eqb_neq in U, H. apply Z.leb_gt in P, T.
    destruct Bad as [?|[?|[?|[?|?]]]]; try contradiction; try lia; congruence.
  - intros U P T H C.
    apply String.eqb_neq in U, H. apply Z.leb_gt in P, T.
    now rewrite U, P, T, H, (positive_not_leb_0 _ C).
  - intros Getenv Atoi ParseFloat. unfold config.Load, config.bind.
    destruct (config.getDurationEnv _ _ _ _) as [|poll]; [discriminate|].
    destruct (config.getDurationEnv _ _ _ _) as [|timeout]; [discriminate|].
    destruct (config.getFloatEnv _ _ _ _) as [|threshold]; [discriminate|].
    destruct (config.validate _) as [|[]] eqn:V; [discriminate|].
    intros [= <-]. exact V.
Qed.

(** [validate] on the defaults of [Load]. *)
Lemma validate_defaults : config.validate sample.cfg_default = config.Returns tt.
Proof. reflexivity. Qed.

Lemma getenv_not_empty (Getenv : string -> string) (key defaultValue : string) :
  defaultValue <> "" -> String.eqb (config.getenv Getenv key defaultValue) "" = false.
Proof.
  intros D. unfold config.getenv.
  destruct (String.eqb (Getenv key) "") eqn:E; [now apply String.eqb_neq | exact E].
Qed.

(** On the configurations [Load] builds, the checks that can fail are
    the three on the numbers: once the three variables are read, [Load]
    ends the process when the interval or the timeout is [<= 0] or the
    threshold compares [<= 0], and returns the configuration when the
    three are [> 0]. *)
Lemma Load_checks (Getenv : string -> string) (Atoi : string -> option Z)
    (ParseFloat : string -> option float) (poll timeout : config.Duration)
    (threshold : float) :
  config.getDurationEnv Getenv Atoi "POLL_INTERVAL" (30 * config.Second)
  = config.Returns poll ->
  config.getDurationEnv Getenv Atoi "EVENT_TIMEOUT" (180 * config.Second)
  = config.Returns timeout ->
  config.getFloatEnv Getenv ParseFloat "CPU_THRESHOLD" 50%float = config.Returns threshold ->
  ((poll <= 0)%Z \/ (timeout <= 0)%Z \/ PrimFloat.leb threshold 0%float = true ->
   exists msg, config.Load Getenv Atoi ParseFloat = config.Fatal msg) /\
  ((0 < poll)%Z -> (0 < timeout)%Z -> PrimFloat.ltb 0%float threshold = true ->
   exists cfg,
     config.Load Getenv Atoi ParseFloat = config.Returns cfg /\
     config.PollInterval cfg = poll /\
     config.EventTimeout cfg = timeout /\
     config.CPUThreshold cfg = threshold).
Proof.
  intros P T C. unfold config.Load, config.bind. rewrite P, T, C.
  unfold config.validate.
  cbn [config.EventSinkURL config.PollInterval config.EventTimeout config.HTTPPort
       config.CPUThreshold].
  rewrite !getenv_not_empty by discriminate.
  split.
  - intros Bad.
    destruct (poll <=? 0)%Z eqn:Ep; [eauto|].
    destruct (timeout <=? 0)%Z eqn:Et; [eauto|].
    destruct (PrimFloat.leb threshold 0%float) eqn:Ec; [eauto|].
    apply Z.leb_gt in Ep, Et. destruct Bad as [?|[?|?]]; [lia | lia | discriminate].
  - intros Hp Ht Hc.
    apply Z.leb_gt in Hp, Ht. rewrite Hp, Ht, (positive_not_leb_0 _ Hc).
    eexists. split; [reflexivity|]. now cbn.
Qed.

(** C5. The code at the failing input: with CPU_THRESHOLD=NaN in the
    environment, the threshold [Load] reads is not greater than 0, and
    [validate] returns on it: the check [CPUThreshold <= 0] is false of
    NaN, so [Load] returns the configuration instead of ending the
    process with "CPU_THRESHOLD must be greater than 0". *)
Theorem nan_threshold_passes_validation :
  config.getFloatEnv sample.env_nan_threshold sample.parse_nan "CPU_THRESHOLD" 50%float
  = config.Returns PrimFloat.nan /\
  PrimFloat.ltb 0%float PrimFloat.nan = false /\
  config.validate sample.cfg_nan_threshold = config.Returns tt /\
  config.Load sample.env_nan_threshold (fun _ => None) sample.parse_nan
  = config.Returns sample.cfg_nan_threshold.
Proof. repeat split; reflexivity. Qed.

(** * Further properties of the code *)

(** ** Keys: building, parsing, and the detector's prefix *)

(** X1. Round trip of a key: for a metric whose kind, namespace and
    resource hold no [":"], the first part of its key is its kind and
    [parseKey] gives back its namespace and its resource. *)
Theorem key_round_trip (m : metrics.Metric) :
  metrics.colon_free m ->
  Go.Split (metrics.buildMetricKey m) ":" !! 0%nat = Some (metrics.Type_ m) /\
  detectors.parseKey (metrics.buildMetricKey m) = (metrics.Namespace m, metrics.Resource m).
Proof.
  intros C. split; [|now apply parseKey_buildMetricKey].
  rewrite (Split_buildMetricKey m C).
  now destruct (String.eqb (metrics.Namespace m) "").
Qed.

Lemma key_round_trip_witness :
  Go.Split (metrics.buildMetricKey sample.nginx_1) ":" !! 0%nat = Some "cpu" /\
  detectors.parseKey (metrics.buildMetricKey sample.nginx_1) = ("default", "nginx").
Proof. apply (key_round_trip sample.nginx_1). repeat constructor. Defined.

(** X2. Whatever the key, the namespace and the resource [parseKey]
    returns hold no [":"]. *)
Theorem parseKey_results_colon_free (key : string) :
  Go.free_of ":" (detectors.parseKey key).1 /\ Go.free_of ":" (detectors.parseKey key).2.
Proof.
  unfold detectors.parseKey.
  pose proof (Split_parts_free ":" key) as F.
  destruct (Go.Split key ":") as [|p0 [|p1 [|p2 [|p3 ps]]]]; cbn [fst snd];
    try (split; reflexivity).
  - inversion F as [|? ? _ F1]; subst. inversion F1; subst. now split.
  - inversion F as [|? ? _ F1]; subst. inversion F1 as [|? ? ? F2]; subst.
    inversion F2; subst. now split.
Qed.

Lemma prefix_String_inv (a : ascii) (s key : string) :
  String.prefix (String a s) key = true ->
  exists key', key = String a key' /\ String.prefix s key' = true.
Proof.
  destruct key as [|c key']; cbn; [discriminate|].
  destruct (Ascii.ascii_dec a c) as [<-|]; [|discriminate].
  intros P. now exists key'.
Qed.

Lemma prefix_String_same (a : ascii) (s key : string) :
  String.prefix (String a s) (String a key) = String.prefix s key.
Proof. cbn. destruct (Ascii.ascii_dec a a); [reflexivity | contradiction]. Qed.

Lemma prefix_cpu_inv (key : string) :
  String.prefix "cpu:" key = true -> exists rest, key = ("cpu:" ++ rest)%string.
Proof.
  intros P.
  apply prefix_String_inv in P as (k1 & -> & P).
  apply prefix_String_inv in P as (k2 & -> & P).
  apply prefix_String_inv in P as (k3 & -> & P).
  apply prefix_String_inv in P as (k4 & -> & _).
  now exists k4.
Qed.

Lemma buildMetricKey_cpu_prefix (m : metrics.Metric) :
  Go.free_of ":" (metrics.Type_ m) ->
  (Go.HasPrefix (metrics.buildMetricKey m) "cpu:" = true <-> metrics.Type_ m = "cpu").
Proof.
  intros Free.
  assert (exists rest, metrics.buildMetricKey m = (metrics.Type_ m ++ String ":" rest)%string)
    as [rest Key].
  { unfold metrics.buildMetricKey.
    destruct (negb (String.eqb (metrics.Namespace m) "")); eexists; reflexivity. }
  unfold Go.HasPrefix. rewrite Key. split.
  - intros P. apply prefix_cpu_inv in P as [tail E].
    apply (f_equal (fun k => Go.Split k ":")) in E.
    rewrite (Split_app_sep ":" _ _ Free) in E.
    change ("cpu:" ++ tail)%string with ("cpu" ++ String ":" tail)%string in E.
    rewrite (Split_app_sep ":" "cpu" tail eq_refl) in E.
    now inversion E.
  - intros ->. change (String.prefix "cpu:" (String "c" (String "p" (String "u" (String ":" rest)))) = true).
    rewrite !prefix_String_same. now destruct rest.
Qed.

(** X3. The detector's prefix test selects the kind: for a metric whose
    kind holds no [":"], the key starts with "cpu:" exactly when the
    kind is "cpu". *)
Theorem cpu_prefix_iff_kind (m : metrics.Metric) :
  Go.free_of ":" (metrics.Type_ m) ->
  (Go.HasPrefix (metrics.buildMetricKey m) "cpu:" = true <-> metrics.Type_ m = "cpu").
Proof. apply buildMetricKey_cpu_prefix. Qed.

Lemma cpu_prefix_iff_kind_witness :
  Go.HasPrefix (metrics.buildMetricKey sample.node_1) "cpu:" = true
  <-> metrics.Type_ sample.node_1 = "cpu".
Proof. apply (cpu_prefix_iff_kind sample.node_1). reflexivity. Defined.

(** ** [Detect]: what it passes over *)

(** X8. Entries of another kind do not matter: [Detect] returns the
    same on the visited entries and on the visited entries whose key
    starts with "cpu:". *)
Theorem Detect_ignores_other_kinds (d : detectors.CPUSpikeDetector) (now : detectors.Time)
    (visit : list (string * list float)) :
  detectors.Detect d now visit
  = detectors.Detect d now (filter (fun e => Go.HasPrefix e.1 "cpu:" = true) visit).
Proof.
  induction visit as [|[key values] rest IH]; [reflexivity|].
  rewrite filter_cons. cbn [fst].
  destruct (decide (Go.HasPrefix key "cpu:" = true)) as [P|N].
  - cbn [detectors.Detect]. rewrite P. cbn [negb].
    destruct (PrimFloat.ltb _ _); [reflexivity | exact IH].
  - apply not_true_is_false in N. cbn [detectors.Detect]. rewrite N. exact IH.
Qed.

(** ** [Detect] and values that are not numbers *)

(** [math.IsNaN], that is [x != x], holds of the one NaN. *)
Lemma is_nan_spec (x : float) : PrimFloat.is_nan x = true <-> Prim2SF x = S754_nan.
Proof.
  unfold PrimFloat.is_nan. rewrite FloatAxioms.eqb_spec. unfold SFeqb, SFcompare.
  destruct (Prim2SF x) as [s|s| |s m e]; cbn.
  - split; discriminate.
  - destruct s; split; discriminate.
  - split; reflexivity.
  - rewrite Z.compare_refl.
    change (PosDef.Pos.compare_cont Eq m m) with (Pos.compare m m).
    rewrite Pos.compare_refl. destruct s; split; discriminate.
Qed.

Lemma add_nan_l (x y : float) :
  PrimFloat.is_nan x = true -> PrimFloat.is_nan (PrimFloat.add x y) = true.
Proof.
  rewrite !is_nan_spec. intros H. now rewrite FloatAxioms.add_spec, H.
Qed.

Lemma add_nan_r (x y : float) :
  PrimFloat.is_nan y = true -> PrimFloat.is_nan (PrimFloat.add x y) = true.
Proof.
  rewrite !is_nan_spec. intros H. rewrite FloatAxioms.add_spec, H.
  now destruct (Prim2SF x).
Qed.

Lemma div_nan_l (x y : float) :
  PrimFloat.is_nan x = true -> PrimFloat.is_nan (PrimFloat.div x y) = true.
Proof.
  rewrite !is_nan_spec. intros H. now rewrite FloatAxioms.div_spec, H.
Qed.

Lemma ltb_nan_l (x y : float) : PrimFloat.is_nan x = true -> PrimFloat.ltb x y = false.
Proof.
  rewrite is_nan_spec. intros H. now rewrite FloatAxioms.ltb_spec, H.
Qed.

Lemma ltb_nan_r (x y : float) : PrimFloat.is_nan y = true -> PrimFloat.ltb x y = false.
Proof.
  rewrite is_nan_spec. intros H. rewrite FloatAxioms.ltb_spec, H.
  unfold SFltb. now destruct (Prim2SF x).
Qed.

(** Once the running sum is NaN it stays NaN. *)
Lemma sum_nan_stays (values : list float) (sum : float) :
  PrimFloat.is_nan sum = true ->
  PrimFloat.is_nan (fold_left PrimFloat.add values sum) = true.
Proof.
  revert sum. induction values as [|v values IH]; intros sum H; [exact H|].
  cbn [fold_left]. apply IH. now apply add_nan_l.
Qed.

(** One NaN among the values makes the sum NaN. *)
Lemma sum_nan_sample (values : list float) (sum v : float) :
  v ∈ values -> PrimFloat.is_nan v = true ->
  PrimFloat.is_nan (fold_left PrimFloat.add values sum) = true.
Proof.
  revert sum. induction values as [|w values IH]; intros sum In H; [inversion In|].
  cbn [fold_left]. apply elem_of_cons in In as [<-|In].
  - apply sum_nan_stays. now apply add_nan_r.
  - now apply IH.
Qed.

Lemma average_nan_sample (values : list float) (v : float) :
  v ∈ values -> PrimFloat.is_nan v = true ->
  PrimFloat.is_nan (detectors.average values) = true.
Proof.
  intros In H. destruct values as [|w values]; [inversion In|].
  unfold detectors.average. apply div_nan_l. now apply (sum_nan_sample _ _ v).
Qed.

(** X9. A detector whose threshold is NaN never fires, whatever it is
    shown. *)
Theorem Detect_nan_threshold_never_fires (d : detectors.CPUSpikeDetector)
    (now : detectors.Time) (visit : list (string * list float)) :
  PrimFloat.is_nan (detectors.Threshold d) = true ->
  detectors.Detect d now visit = (None, false).
Proof.
  intros H. apply Detect_no_breach. apply Forall_forall. intros [key values] _.
  unfold detectors.breaches. cbn [fst snd].
  rewrite (ltb_nan_l _ _ H). apply andb_false_r.
Qed.

Lemma Detect_nan_threshold_never_fires_witness :
  detectors.Detect (detectors.NewCPUSpikeDetector PrimFloat.nan) 0
    [sample.nginx; sample.api; sample.db_memory] = (None, false).
Proof.
  apply (Detect_nan_threshold_never_fires (detectors.NewCPUSpikeDetector PrimFloat.nan)).
  reflexivity.
Defined.

(** X10. A key one of whose samples is NaN is passed over: its mean is
    NaN, which exceeds no threshold, so the scan goes on with the
    entries after it. *)
Theorem Detect_skips_nan_sample (d : detectors.CPUSpikeDetector) (now : detectors.Time)
    (key : string) (values : list float) (v : float)
    (rest : list (string * list float)) :
  v ∈ values -> PrimFloat.is_nan v = true ->
  detectors.Detect d now ((key, values) :: rest) = detectors.Detect d now rest.
Proof.
  intros In H. apply Detect_skip. unfold detectors.breaches. cbn [fst snd].
  rewrite (ltb_nan_r _ _ (average_nan_sample values v In H)). apply andb_false_r.
Qed.

Lemma Detect_skips_nan_sample_witness :
  detectors.Detect sample.d50 0
    [("cpu:default:nginx", [900%float; PrimFloat.nan]); sample.api]
  = detectors.Detect sample.d50 0 [sample.api].
Proof.
  apply (Detect_skips_nan_sample sample.d50 0 "cpu:default:nginx"
           [900%float; PrimFloat.nan] PrimFloat.nan [sample.api]).
  - apply list_elem_of_further, list_elem_of_here.
  - reflexivity.
Defined.

(** ** [AggregateMetrics]: labels, composition, conservation *)

Lemma labels_fold_lookup (ms : list metrics.Metric)
    (st : gmap string (list float) * gmap string string) (k : string) :
  (fold_left metrics.aggregate_step ms st).2 !! k = fold_left (notions.overwrite k) ms (st.2 !! k).
Proof.
  revert st. induction ms as [|m ms IH]; intros st; [reflexivity|].
  cbn [fold_left]. rewrite IH. f_equal.
  unfold metrics.aggregate_step, notions.overwrite, Go.index. cbn [snd].
  rewrite merge_labels_union, lookup_union.
  destruct (Go.entries (metrics.Labels m) !! k), (st.2 !! k); reflexivity.
Qed.

Lemma overwrite_none (k : string) (ms : list metrics.Metric) (held : option string) :
  Forall (fun m => Go.index (metrics.Labels m) k = None) ms ->
  fold_left (notions.overwrite k) ms held = held.
Proof.
  intros F. revert held. induction F as [|m ms N _ IH]; intros held; [reflexivity|].
  cbn [fold_left]. rewrite IH. unfold notions.overwrite. now rewrite N.
Qed.

(** X4. Labels are merged last-write-wins: the label under [k] in the
    result is the one of the last metric of the input that has a label
    under [k], and there is none when no metric has one. *)
Theorem AggregateMetrics_labels_last_write_wins (ms : list metrics.Metric) (k : string) :
  (forall before m after v,
     ms = before ++ m :: after ->
     Go.index (metrics.Labels m) k = Some v ->
     Forall (fun m' => Go.index (metrics.Labels m') k = None) after ->
     Go.index (detectors.Labels (metrics.AggregateMetrics ms)) k = Some v) /\
  (Forall (fun m => Go.index (metrics.Labels m) k = None) ms ->
   Go.index (detectors.Labels (metrics.AggregateMetrics ms)) k = None).
Proof.
  assert (Go.index (detectors.Labels (metrics.AggregateMetrics ms)) k
          = fold_left (notions.overwrite k) ms None) as L.
  { unfold Go.index, Go.entries, metrics.AggregateMetrics.
    cbv zeta. cbn [detectors.Labels default from_option id].
    rewrite labels_fold_lookup. cbn [snd]. now rewrite lookup_empty. }
  rewrite L. split.
  - intros before m after v -> Has Later.
    rewrite fold_left_app. cbn [fold_left].
    rewrite (overwrite_none k after _ Later). unfold notions.overwrite. now rewrite Has.
  - intros F. now apply overwrite_none.
Qed.

(** X5. The order in which the range visits the labels of a metric
    does not matter: writing them entry by entry in any two visiting
    orders gives the same map, in which every label of the metric
    replaces the one held before under the same name and the other
    labels are kept. *)
Theorem labels_merge_order_irrelevant (labels : gmap string string) (ml : Go.map string)
    (visit1 visit2 : list (string * string)) :
  Go.range_of ml visit1 -> Go.range_of ml visit2 ->
  fold_left (fun acc e => <[e.1 := e.2]> acc) visit1 labels
  = fold_left (fun acc e => <[e.1 := e.2]> acc) visit2 labels /\
  fold_left (fun acc e => <[e.1 := e.2]> acc) visit1 labels = Go.entries ml ∪ labels.
Proof.
  intros R1 R2.
  rewrite (merge_labels_any_order labels ml visit1 R1),
    (merge_labels_any_order labels ml visit2 R2).
  split; [reflexivity | apply merge_labels_union].
Qed.

Lemma labels_merge_order_irrelevant_witness :
  fold_left (fun acc e => <[e.1 := e.2]> acc) [("app", "nginx"); ("tier", "web")]
    ({["app" := "api"]} : gmap string string)
  = fold_left (fun acc e => <[e.1 := e.2]> acc) [("tier", "web"); ("app", "nginx")]
      ({["app" := "api"]} : gmap string string).
Proof.
  assert (Go.range_of (Some (list_to_map [("app", "nginx"); ("tier", "web")]))
            [("app", "nginx"); ("tier", "web")]) as R
    by (apply range_of_list_to_map; apply (bool_decide_unpack _); vm_compute; exact I).
  apply (labels_merge_order_irrelevant {["app" := "api"]}
           (Some (list_to_map [("app", "nginx"); ("tier", "web")])) _ _
           R (range_of_Permutation _ _ _ R (perm_swap _ _ _))).
Defined.

Lemma values_of_app (k : string) (ms1 ms2 : list metrics.Metric) :
  metrics.values_of k (ms1 ++ ms2) = metrics.values_of k ms1 ++ metrics.values_of k ms2.
Proof. unfold metrics.values_of. now rewrite filter_app, fmap_app. Qed.

(** The values under a key, a missing key reading as no values. *)
Lemma AggregateMetrics_values (ms : list metrics.Metric) (k : string) :
  default [] (Go.index (detectors.Metrics (metrics.AggregateMetrics ms)) k)
  = metrics.values_of k ms.
Proof.
  rewrite AggregateMetrics_lookup. now destruct (metrics.values_of k ms).
Qed.

Lemma labels_fold_union (ms : list metrics.Metric)
    (st : gmap string (list float) * gmap string string) :
  (fold_left metrics.aggregate_step ms st).2
  = (fold_left metrics.aggregate_step ms (∅, ∅)).2 ∪ st.2.
Proof.
  apply map_eq. intros k.
  rewrite lookup_union, !labels_fold_lookup. cbn [snd]. rewrite lookup_empty.
  generalize (st.2 !! k) as held. intros held.
  assert (forall h, fold_left (notions.overwrite k) ms h
                    = union_with (fun x _ => Some x) (fold_left (notions.overwrite k) ms None) h) as G.
  { induction ms as [|m ms IH]; intros h; [now destruct h|].
    cbn [fold_left]. rewrite (IH (notions.overwrite k h m)), (IH (notions.overwrite k None m)).
    generalize (fold_left (notions.overwrite k) ms None) as later. intros later.
    unfold notions.overwrite. destruct (Go.index (metrics.Labels m) k), h, later; reflexivity. }
  apply G.
Qed.

(** X6. Aggregating two batches one after the other: under every key
    the values of the first batch are followed by those of the second,
    and the labels of the second batch win over those of the first. *)
Theorem AggregateMetrics_app (ms1 ms2 : list metrics.Metric) :
  (forall k,
     default [] (Go.index (detectors.Metrics (metrics.AggregateMetrics (ms1 ++ ms2))) k)
     = default [] (Go.index (detectors.Metrics (metrics.AggregateMetrics ms1)) k)
       ++ default [] (Go.index (detectors.Metrics (metrics.AggregateMetrics ms2)) k)) /\
  Go.entries (detectors.Labels (metrics.AggregateMetrics (ms1 ++ ms2)))
  = Go.entries (detectors.Labels (metrics.AggregateMetrics ms2))
    ∪ Go.entries (detectors.Labels (metrics.AggregateMetrics ms1)).
Proof.
  split.
  - intros k. now rewrite !AggregateMetrics_values, values_of_app.
  - unfold Go.entries, metrics.AggregateMetrics.
    cbv zeta. cbn [detectors.Labels default from_option id].
    rewrite fold_left_app. apply labels_fold_union.
Qed.

(** All the values an aggregation holds, key after key. *)
Lemma append_at_values (aggregated : gmap string (list float)) (key : string) (v : float) :
  mjoin (map_to_list (metrics.append_at aggregated key v)).*2
  ≡ₚ v :: mjoin (map_to_list aggregated).*2.
Proof.
  unfold metrics.append_at.
  destruct (aggregated !! key) as [old|] eqn:L; cbn [default].
  - rewrite <- (insert_delete_id aggregated key old L) at 2.
    rewrite <- (insert_delete_eq aggregated).
    rewrite !map_to_list_insert by apply lookup_delete_eq.
    cbn [fmap list_fmap snd mjoin list_join].
    rewrite <- app_assoc. cbn [app].
    now rewrite <- Permutation_middle.
  - rewrite map_to_list_insert by exact L. reflexivity.
Qed.

Lemma aggregate_fold_values (ms : list metrics.Metric)
    (st : gmap string (list float) * gmap string string) :
  mjoin (map_to_list (fold_left metrics.aggregate_step ms st).1).*2
  ≡ₚ mjoin (map_to_list st.1).*2 ++ (metrics.Value <$> ms).
Proof.
  revert st. induction ms as [|m ms IH]; intros st.
  - cbn. now rewrite app_nil_r.
  - cbn [fold_left]. rewrite IH. unfold metrics.aggregate_step. cbn [fst].
    rewrite append_at_values. cbn [fmap list_fmap].
    now rewrite <- Permutation_middle.
Qed.

(** X7. No sample is lost and none is counted twice: the values the
    aggregation holds under all its keys are, up to their order across
    keys, the values of the input. *)
Theorem AggregateMetrics_conserves_values (ms : list metrics.Metric) :
  mjoin (map_to_list (Go.entries (detectors.Metrics (metrics.AggregateMetrics ms)))).*2
  ≡ₚ metrics.Value <$> ms.
Proof.
  unfold Go.entries, metrics.AggregateMetrics.
  cbv zeta. cbn [detectors.Metrics default from_option id].
  rewrite aggregate_fold_values. cbn [fst].
  now rewrite map_to_list_empty.
Qed.

(** ** From the aggregation to the signal *)

Lemma values_of_nonempty (k : string) (ms : list metrics.Metric) :
  metrics.values_of k ms <> [] ->
  exists m, m ∈ ms /\ metrics.buildMetricKey m = k.
Proof.
  unfold metrics.values_of.
  destruct (filter (fun m => metrics.buildMetricKey m = k) ms) as [|m rest] eqn:F;
    [intros N; now contradiction N|].
  intros _. exists m.
  assert (m ∈ filter (fun m => metrics.buildMetricKey m = k) ms) as I
    by (rewrite F; apply list_elem_of_here).
  apply list_elem_of_filter in I as [E In]. now split.
Qed.

(** X11. A signal raised on an aggregation names a metric of the input:
    when the kind, namespace and resource of the input's metrics hold
    no [":"] and [Detect] returns a signal, some metric of kind "cpu" in
    the input has the signal's namespace and resource, the mean of the
    values collected for its key is strictly above the threshold, and
    the signal's severity is the class of that mean. *)
Theorem signal_names_an_input_metric (ms : list metrics.Metric)
    (d : detectors.CPUSpikeDetector) (now : detectors.Time)
    (visit : list (string * list float)) (signal : detectors.IncidentSignal) :
  Forall metrics.colon_free ms ->
  Go.range_of (detectors.Metrics (metrics.AggregateMetrics ms)) visit ->
  detectors.Detect d now visit = (Some signal, true) ->
  exists m,
    m ∈ ms /\
    metrics.Type_ m = "cpu" /\
    detectors.Namespace signal = metrics.Namespace m /\
    detectors.Resource signal = metrics.Resource m /\
    PrimFloat.ltb (detectors.Threshold d)
      (detectors.average (metrics.values_of (metrics.buildMetricKey m) ms)) = true /\
    detectors.Severity_ signal
    = detectors.ClassifySeverity
        (detectors.average (metrics.values_of (metrics.buildMetricKey m) ms))
        (detectors.Threshold d).
Proof.
  intros Free R D. rewrite Detect_find in D.
  destruct (List.find (detectors.breaches d) visit) as [[key values]|] eqn:F; [|discriminate].
  apply List.find_some in F as [In B]. apply list_elem_of_In in In.
  apply (range_of_index _ _ _ _ R) in In.
  rewrite AggregateMetrics_lookup in In.
  destruct (metrics.values_of key ms) as [|v vs] eqn:V; [discriminate|].
  injection In as <-.
  destruct (values_of_nonempty key ms) as (m & Hm & <-); [rewrite V; discriminate|].
  rewrite Forall_forall in Free. pose proof (Free m Hm) as C.
  unfold detectors.breaches in B. cbn [fst snd] in B.
  apply andb_true_iff in B as [P T].
  exists m. rewrite V.
  injection D as <-. unfold detectors.spike_signal.
  rewrite (parseKey_buildMetricKey m C). cbn.
  repeat split; try assumption.
  apply (buildMetricKey_cpu_prefix m); [apply C | exact P].
Qed.

Lemma sample_aggregation_range :
  Go.range_of
    (detectors.Metrics
       (metrics.AggregateMetrics [sample.nginx_1; sample.api_1; sample.nginx_2; sample.node_1]))
    (map_to_list
       (Go.entries
          (detectors.Metrics
             (metrics.AggregateMetrics
                [sample.nginx_1; sample.api_1; sample.nginx_2; sample.node_1])))).
Proof. unfold Go.range_of. reflexivity. Qed.

(** X11's run: the four samples, threshold 50.0; the signal names
    nginx or the node, both of which exceed the threshold. *)
Lemma signal_names_an_input_metric_witness :
  exists signal m,
    detectors.Detect sample.d50 0
      (map_to_list
         (Go.entries
            (detectors.Metrics
               (metrics.AggregateMetrics
                  [sample.nginx_1; sample.api_1; sample.nginx_2; sample.node_1]))))
    = (Some signal, true) /\
    m ∈ [sample.nginx_1; sample.api_1; sample.nginx_2; sample.node_1] /\
    detectors.Resource signal = metrics.Resource m.
Proof.
  destruct (detectors.Detect sample.d50 0
              (map_to_list
                 (Go.entries
                    (detectors.Metrics
                       (metrics.AggregateMetrics
                          [sample.nginx_1; sample.api_1; sample.nginx_2; sample.node_1])))))
    as [[signal|] [|]] eqn:D; try (vm_compute in D; discriminate D).
  destruct (signal_names_an_input_metric
              [sample.nginx_1; sample.api_1; sample.nginx_2; sample.node_1]
              sample.d50 0 _ signal sample_colon_free sample_aggregation_range D)
    as (m & In & _ & _ & Res & _).
  exists signal, m. auto.
Defined.

(** ** The cycle *)

Lemma published_app (t1 t2 : list scheduler.event) :
  scheduler.published (t1 ++ t2) = scheduler.published t1 ++ scheduler.published t2.
Proof. apply omap_app. Qed.

Lemma collect_loop_spec (rt : scheduler.Runtime) (cs : list scheduler.Collector)
    (allMetrics : list metrics.Metric) :
  (scheduler.collect_loop rt cs allMetrics).2
  = allMetrics ++ mjoin (scheduler.contribution rt <$> cs) /\
  scheduler.published (scheduler.collect_loop rt cs allMetrics).1 = [] /\
  length (scheduler.collect_loop rt cs allMetrics).1 = length cs.
Proof.
  revert allMetrics. induction cs as [|c cs IH]; intros allMetrics.
  - cbn. now rewrite app_nil_r.
  - cbn [scheduler.collect_loop fmap list_fmap mjoin list_join].
    unfold scheduler.contribution at 1.
    destruct (scheduler.collect rt c) as [collected|cause]; cbn [fst snd length].
    + destruct (IH (allMetrics ++ collected)) as (M & P & L).
      rewrite M, L, <- app_assoc. repeat split. exact P.
    + destruct (IH allMetrics) as (M & P & L).
      rewrite M, L. repeat split. exact P.
Qed.

Lemma last_after {A : Type} (x : A) (l : list A) : l <> [] -> last (x :: l) = last l.
Proof. destruct l; [contradiction | reflexivity]. Qed.

Lemma Detector_Detect_shape (det : scheduler.Detector) (now : detectors.Time)
    (visit : list (string * list float)) :
  scheduler.Detector_Detect det now visit = (None, false) \/
  exists signal, scheduler.Detector_Detect det now visit = (Some signal, true).
Proof.
  destruct det as [d]. cbn [scheduler.Detector_Detect]. rewrite Detect_find.
  destruct (List.find (detectors.breaches d) visit) as [[key values]|]; eauto.
Qed.

Lemma detect_loop_spec (rt : scheduler.Runtime) (p : events.Publisher)
    (input : detectors.SignalInput) (i : nat) (ds : list scheduler.Detector) :
  (scheduler.detect_loop rt p input i ds).2 = scheduler.Returned /\
  scheduler.published (scheduler.detect_loop rt p input i ds).1 = notions.matched rt input i ds /\
  last (scheduler.detect_loop rt p input i ds).1 = Some scheduler.LogCompleted.
Proof.
  revert i. induction ds as [|det ds IH]; intros i; [now cbn|].
  cbn [scheduler.detect_loop notions.matched].
  destruct (IH (S i)) as (E & P & L).
  destruct (Detector_Detect_shape det (scheduler.now rt i) (scheduler.range rt i input))
    as [-> | [signal ->]]; [now repeat split|].
  cbv zeta.
  assert ((scheduler.detect_loop rt p input (S i) ds).1 <> []) as NE.
  { intros N. rewrite N in L. discriminate L. }
  destruct (events.Publish (scheduler.world rt i) p signal).2; cbn [fst snd];
    (split; [exact E|]);
    (split; [unfold scheduler.published in *; cbn [omap list_omap]; now rewrite P|]);
    now rewrite !last_after.
Qed.

Lemma executeCycle_spec (rt : scheduler.Runtime) (s : scheduler.Scheduler) :
  (scheduler.executeCycle rt s).2 = scheduler.Returned /\
  scheduler.published (scheduler.executeCycle rt s).1
  = match notions.gathered rt s with
    | [] => []
    | _ :: _ =>
        notions.matched rt (metrics.AggregateMetrics (notions.gathered rt s)) 0
          (scheduler.detectors_ s)
    end.
Proof.
  unfold scheduler.executeCycle, notions.gathered. cbv zeta.
  destruct (collect_loop_spec rt (scheduler.collectors s) []) as (M & P & _).
  cbn [app] in M. rewrite M.
  destruct (mjoin (scheduler.contribution rt <$> scheduler.collectors s)) as [|m ms] eqn:G;
    cbn [fst snd].
  - split; [reflexivity|].
    change (scheduler.published ([scheduler.LogExecuting] ++
              (scheduler.collect_loop rt (scheduler.collectors s) []).1 ++ [scheduler.LogNoMetrics])
            = []).
    now rewrite !published_app, P.
  - destruct (detect_loop_spec rt (scheduler.publisher s)
                (metrics.AggregateMetrics (m :: ms)) 0 (scheduler.detectors_ s)) as (E & Q & _).
    split; [exact E|].
    change (scheduler.published ([scheduler.LogExecuting] ++
              (scheduler.collect_loop rt (scheduler.collectors s) []).1 ++
              (scheduler.detect_loop rt (scheduler.publisher s)
                 (metrics.AggregateMetrics (m :: ms)) 0 (scheduler.detectors_ s)).1)
            = notions.matched rt (metrics.AggregateMetrics (m :: ms)) 0 (scheduler.detectors_ s)).
    now rewrite !published_app, P, Q.
Qed.

Lemma matched_length (rt : scheduler.Runtime) (input : detectors.SignalInput) (i : nat)
    (ds : list scheduler.Detector) :
  (length (notions.matched rt input i ds) <= length ds)%nat.
Proof.
  revert i. induction ds as [|det ds IH]; intros i; [reflexivity|].
  cbn [notions.matched length]. specialize (IH (S i)).
  destruct (scheduler.Detector_Detect det _ _) as [[signal|] [|]]; cbn [length]; lia.
Qed.

Lemma matched_ext (rt rt' : scheduler.Runtime) (input : detectors.SignalInput) (i : nat)
    (ds : list scheduler.Detector) :
  (forall j, scheduler.now rt j = scheduler.now rt' j) ->
  (forall j, scheduler.range rt j input = scheduler.range rt' j input) ->
  notions.matched rt input i ds = notions.matched rt' input i ds.
Proof.
  intros N R. revert i. induction ds as [|det ds IH]; intros i; [reflexivity|].
  cbn [notions.matched]. now rewrite N, R, IH.
Qed.

(** X15. The first loop of the cycle: the metrics gathered are those of
    the collectors that succeed, in the order of the collectors, after
    the ones already held; a collector that fails contributes nothing
    and does not stop the ones after it; one line is logged per
    collector and nothing is published. *)
Theorem collect_loop_gathers (rt : scheduler.Runtime) (cs : list scheduler.Collector)
    (allMetrics : list metrics.Metric) :
  (scheduler.collect_loop rt cs allMetrics).2
  = allMetrics
    ++ mjoin ((fun c => match scheduler.collect rt c with
                        | events.Ok collected => collected
                        | events.Err _ => []
                        end) <$> cs) /\
  length (scheduler.collect_loop rt cs allMetrics).1 = length cs /\
  scheduler.published (scheduler.collect_loop rt cs allMetrics).1 = [].
Proof.
  destruct (collect_loop_spec rt cs allMetrics) as (M & P & L). now repeat split.
Qed.

Lemma mjoin_all_nil {A B : Type} (f : A -> list B) (l : list A) :
  Forall (fun x => f x = []) l -> mjoin (f <$> l) = [].
Proof.
  induction 1 as [|x l E _ IH]; [reflexivity|].
  rewrite fmap_cons. change (mjoin (f x :: (f <$> l))) with (f x ++ mjoin (f <$> l)).
  now rewrite E, IH.
Qed.

(** X12. A cycle in which every collector fails or returns no metric
    ends early: it returns, the last line it logs is "No metrics
    collected in this cycle", and it publishes nothing. *)
Theorem executeCycle_without_metrics (rt : scheduler.Runtime) (s : scheduler.Scheduler) :
  Forall (fun c => scheduler.contribution rt c = []) (scheduler.collectors s) ->
  (scheduler.executeCycle rt s).2 = scheduler.Returned /\
  last (scheduler.executeCycle rt s).1 = Some scheduler.LogNoMetrics /\
  scheduler.published (scheduler.executeCycle rt s).1 = [].
Proof.
  intros Nothing.
  destruct (executeCycle_spec rt s) as (E & P).
  pose proof (mjoin_all_nil _ _ Nothing) as G.
  split; [exact E|]. split.
  - unfold scheduler.executeCycle. cbv zeta.
    destruct (collect_loop_spec rt (scheduler.collectors s) []) as (M & _ & _).
    cbn [app] in M. rewrite M, G. cbn [fst].
    change (last ((scheduler.LogExecuting
                     :: (scheduler.collect_loop rt (scheduler.collectors s) []).1)
                  ++ [scheduler.LogNoMetrics]) = Some scheduler.LogNoMetrics).
    apply last_snoc.
  - rewrite P. unfold notions.gathered. now rewrite G.
Qed.

Lemma executeCycle_without_metrics_witness :
  (scheduler.executeCycle fixture.outage fixture.two_detectors).2 = scheduler.Returned /\
  last (scheduler.executeCycle fixture.outage fixture.two_detectors).1
  = Some scheduler.LogNoMetrics /\
  scheduler.published (scheduler.executeCycle fixture.outage fixture.two_detectors).1 = [].
Proof.
  apply (executeCycle_without_metrics fixture.outage fixture.two_detectors).
  repeat constructor.
Defined.

(** X13. Every cycle returns: no detector answers a nil signal with
    true, so [Publish] is never handed nil; a cycle asks [Publish] at
    most once per detector. *)
Theorem executeCycle_returns (rt : scheduler.Runtime) (s : scheduler.Scheduler) :
  (scheduler.executeCycle rt s).2 = scheduler.Returned /\
  (length (scheduler.published (scheduler.executeCycle rt s).1)
   <= length (scheduler.detectors_ s))%nat.
Proof.
  destruct (executeCycle_spec rt s) as (E & P). split; [exact E|].
  rewrite P. destruct (notions.gathered rt s); [cbn; lia | apply matched_length].
Qed.

Lemma untimed_spike_signal (d : detectors.CPUSpikeDetector) (now1 now2 : detectors.Time)
    (key : string) (avg : float) :
  notions.untimed (detectors.spike_signal d now1 key avg)
  = notions.untimed (detectors.spike_signal d now2 key avg).
Proof. unfold detectors.spike_signal. now destruct (detectors.parseKey key). Qed.

(** Apart from the timestamps, the matches do not depend on the clock. *)
Lemma matched_untimed (rt rt' : scheduler.Runtime) (input : detectors.SignalInput) (i : nat)
    (ds : list scheduler.Detector) :
  (forall j, scheduler.range rt j input = scheduler.range rt' j input) ->
  notions.untimed <$> notions.matched rt input i ds
  = notions.untimed <$> notions.matched rt' input i ds.
Proof.
  intros R. revert i. induction ds as [|[d] ds IH]; intros i; [reflexivity|].
  cbn [notions.matched scheduler.Detector_Detect]. rewrite <- R, !Detect_find.
  destruct (List.find (detectors.breaches d) (scheduler.range rt i input))
    as [[key values]|]; [|apply IH].
  rewrite !fmap_cons, IH. f_equal. apply untimed_spike_signal.
Qed.

(** X14. What a cycle publishes is decided before any answer of the
    sink: the signals handed to [Publish] are the signals of the
    detectors that match on the aggregation of the gathered metrics, in
    the order of the detectors, each stamped with what the clock reads
    in its own [Detect]; so a failed publish does not stop the detectors
    after it, and apart from the timestamps (which depend on when the
    calls before returned) two cycles that differ in the publisher, in
    what the sink answers and in what the clock reads publish the same
    signals. *)
Theorem executeCycle_publishes_every_match (rt : scheduler.Runtime) (s : scheduler.Scheduler) :
  scheduler.published (scheduler.executeCycle rt s).1
  = match notions.gathered rt s with
    | [] => []
    | _ :: _ =>
        notions.matched rt (metrics.AggregateMetrics (notions.gathered rt s)) 0
          (scheduler.detectors_ s)
    end /\
  forall (clock : nat -> detectors.Time) (w : nat -> events.World) (p : events.Publisher),
    notions.untimed <$>
      scheduler.published
        (scheduler.executeCycle
           {| scheduler.now := clock; scheduler.collect := scheduler.collect rt;
              scheduler.range := scheduler.range rt; scheduler.world := w |}
           {| scheduler.cfg := scheduler.cfg s; scheduler.collectors := scheduler.collectors s;
              scheduler.detectors_ := scheduler.detectors_ s; scheduler.publisher := p |}).1
    = notions.untimed <$> scheduler.published (scheduler.executeCycle rt s).1.
Proof.
  split; [apply executeCycle_spec|].
  intros clock w p.
  destruct (executeCycle_spec rt s) as (_ & ->).
  match goal with
  | |- _ <$> scheduler.published (scheduler.executeCycle ?rt' ?s').1 = _ =>
      destruct (executeCycle_spec rt' s') as (_ & ->)
  end.
  change (notions.gathered _ _) with (notions.gathered rt s).
  destruct (notions.gathered rt s); [reflexivity|].
  now apply matched_untimed.
Qed.

(** X16. A scheduler built by [New] detects with the threshold 600
    whatever the configuration says, its [CPUThreshold] included: for
    every configuration, what a cycle hands to [Publish] is what the
    CPU-spike detector of threshold 600 returns on the aggregation of
    the collector's metrics, one signal when it matches and none when
    it does not or when no metric was collected. *)
Theorem New_detects_with_threshold_600 (c : config.Config)
    (cpu_collector : scheduler.Collector) (rt : scheduler.Runtime) :
  scheduler.published (scheduler.executeCycle rt (scheduler.New c cpu_collector)).1
  = match scheduler.contribution rt cpu_collector with
    | [] => []
    | _ :: _ =>
        match detectors.Detect (detectors.NewCPUSpikeDetector 600%float) (scheduler.now rt 0%nat)
                (scheduler.range rt 0%nat
                   (metrics.AggregateMetrics (scheduler.contribution rt cpu_collector))) with
        | (Some signal, true) => [signal]
        | _ => []
        end
    end.
Proof.
  destruct (executeCycle_spec rt (scheduler.New c cpu_collector)) as (_ & ->).
  unfold notions.gathered. cbn [scheduler.New scheduler.collectors scheduler.detectors_].
  rewrite fmap_cons, fmap_nil.
  change (mjoin [scheduler.contribution rt cpu_collector])
    with (scheduler.contribution rt cpu_collector ++ []).
  rewrite app_nil_r.
  destruct (scheduler.contribution rt cpu_collector) as [|m ms]; [reflexivity|].
  cbn [notions.matched scheduler.Detector_Detect].
  destruct (detectors.Detect _ _ _) as [[signal|] [|]]; reflexivity.
Qed.

(** A mean between the configured threshold and 600 raises no signal:
    the default configuration says 50.0, the node's mean is 400.0, and
    the cycle of the scheduler built from that configuration publishes
    nothing. *)
Lemma New_passes_over_400 :
  config.CPUThreshold sample.cfg_default = 50%float /\
  scheduler.published
    (scheduler.executeCycle fixture.busy
       (scheduler.New sample.cfg_default fixture.cpu_collector)).1 = [].
Proof.
  split; [reflexivity|].
  vm_compute. reflexivity.
Qed.

(** ** From the environment to the publisher *)

Lemma validate_returns_inv (c : config.Config) :
  config.validate c = config.Returns tt ->
  config.EventSinkURL c <> "" /\
  (0 < config.PollInterval c)%Z /\
  (0 < config.EventTimeout c)%Z /\
  config.HTTPPort c <> "" /\
  PrimFloat.leb (config.CPUThreshold c) 0%float = false.
Proof.
  unfold config.validate.
  destruct (String.eqb (config.EventSinkURL c) "") eqn:U; [discriminate|].
  destruct (config.PollInterval c <=? 0)%Z eqn:P; [discriminate|].
  destruct (config.EventTimeout c <=? 0)%Z eqn:T; [discriminate|].
  destruct (String.eqb (config.HTTPPort c) "") eqn:H; [discriminate|].
  destruct (PrimFloat.leb (config.CPUThreshold c) 0%float) eqn:C; [discriminate|].
  intros _. apply String.eqb_neq in U, H. apply Z.leb_gt in P, T. auto.
Qed.

Lemma Load_validated (Getenv : string -> string) (Atoi : string -> option Z)
    (ParseFloat : string -> option float) (c : config.Config) :
  config.Load Getenv Atoi ParseFloat = config.Returns c ->
  config.validate c = config.Returns tt /\
  config.ServiceName c = config.getenv Getenv "SERVICE_NAME" "telemetry-service".
Proof.
  unfold config.Load, config.bind.
  destruct (config.getDurationEnv _ _ _ _) as [|poll]; [discriminate|].
  destruct (config.getDurationEnv _ _ _ _) as [|timeout]; [discriminate|].
  destruct (config.getFloatEnv _ _ _ _) as [|threshold]; [discriminate|].
  destruct (config.validate _) as [|[]] eqn:V; [discriminate|].
  intros [= <-]. now split.
Qed.

(** X17. A publisher and a ticker built from a loaded configuration
    are usable: whatever the environment holds, when [Load] returns a
    configuration, its poll interval is positive (the interval handed
    to the ticker), and the publisher built from it has a sink address
    that is not empty, a positive client timeout and a source that is
    not empty. *)
Theorem Load_then_NewPublisher (Getenv : string -> string) (Atoi : string -> option Z)
    (ParseFloat : string -> option float) (c : config.Config) :
  config.Load Getenv Atoi ParseFloat = config.Returns c ->
  (0 < config.PollInterval c)%Z /\
  events.sinkURL (events.NewPublisher c) <> "" /\
  (0 < events.client_Timeout (events.NewPublisher c))%Z /\
  events.source (events.NewPublisher c) <> "".
Proof.
  intros L. destruct (Load_validated _ _ _ _ L) as [V Name].
  destruct (validate_returns_inv c V) as (U & P & T & _ & _).
  cbn [events.NewPublisher events.sinkURL events.client_Timeout events.source].
  repeat split; try assumption.
  rewrite Name. unfold config.getenv.
  destruct (String.eqb (Getenv "SERVICE_NAME") "") eqn:E; [discriminate|].
  now apply String.eqb_neq in E.
Qed.

Lemma Load_then_NewPublisher_witness :
  (0 < config.PollInterval sample.cfg_default)%Z /\
  events.sinkURL (events.NewPublisher sample.cfg_default) <> "" /\
  (0 < events.client_Timeout (events.NewPublisher sample.cfg_default))%Z /\
  events.source (events.NewPublisher sample.cfg_default) <> "".
Proof.
  apply (Load_then_NewPublisher fixture.env_empty fixture.no_int fixture.no_float).
  reflexivity.
Defined.

(** X18. A duration read from the environment: a variable that is set
    and that [Atoi] reads as [seconds] gives a value in the range of a
    signed 64-bit integer that agrees with [seconds * 10^9] modulo
    [2^64]; it is exactly [seconds * 10^9] nanoseconds when
    [-9223372036 <= seconds <= 9223372036], the range without
    overflow. *)
Theorem getDurationEnv_seconds (Getenv : string -> string) (Atoi : string -> option Z)
    (key : string) (defaultValue : config.Duration) (seconds : Z) :
  Getenv key <> "" ->
  Atoi (Getenv key) = Some seconds ->
  exists d,
    config.getDurationEnv Getenv Atoi key defaultValue = config.Returns d /\
    (- 2 ^ 63 <= d < 2 ^ 63)%Z /\
    ((d - seconds * 1000000000) mod 2 ^ 64 = 0)%Z /\
    ((-9223372036 <= seconds <= 9223372036)%Z -> d = (seconds * config.Second)%Z).
Proof.
  intros Set_ Parsed. unfold config.getDurationEnv.
  apply String.eqb_neq in Set_. rewrite Set_, Parsed.
  eexists. split; [reflexivity|].
  unfold config.wrap64, config.Second.
  pose proof (Z.mod_pos_bound (seconds * 1000000000 + 2 ^ 63) (2 ^ 64) eq_refl) as B.
  split; [lia|]. split.
  - replace ((seconds * 1000000000 + 2 ^ 63) mod 2 ^ 64 - 2 ^ 63 - seconds * 1000000000)%Z
      with ((seconds * 1000000000 + 2 ^ 63) mod 2 ^ 64
            - (seconds * 1000000000 + 2 ^ 63))%Z by lia.
    rewrite Zminus_mod, Zmod_mod, Z.sub_diag. reflexivity.
  - intros Range. rewrite Z.mod_small; lia.
Qed.

Lemma getDurationEnv_seconds_witness :
  exists d,
    config.getDurationEnv (fun _ => "45") (fun _ => Some 45%Z) "POLL_INTERVAL"
      (30 * config.Second) = config.Returns d /\
    (- 2 ^ 63 <= d < 2 ^ 63)%Z /\
    ((d - 45 * 1000000000) mod 2 ^ 64 = 0)%Z /\
    ((-9223372036 <= 45 <= 9223372036)%Z -> d = (45 * config.Second)%Z).
Proof.
  apply (getDurationEnv_seconds (fun _ => "45") (fun _ => Some 45%Z)).
  - discriminate.
  - reflexivity.
Defined.

(** ** [Publish]: output and errors *)

(** X19. [Publish] writes the agent's answer to standard output
    exactly when it returns nil: every error return writes nothing, and
    every success writes something. *)
Theorem Publish_writes_iff_nil (w : events.World) (p : events.Publisher)
    (signal : detectors.IncidentSignal) :
  (events.Publish w p signal).2 = None <-> (events.Publish w p signal).1 <> [].
Proof.
  unfold events.Publish.
  destruct (events.json_Marshal w _); [|now split].
  destruct (events.http_NewRequest w _ _); [|now split].
  destruct (events.client_Do w _) as [resp|]; [|now split].
  destruct ((events.StatusCode resp <? 200) || (300 <=? events.StatusCode resp))%Z;
    [now split|].
  destruct (events.json_Decode w _) as [[decision message]|]; now split.
Qed.

Lemma status_text_inj (c1 c2 : Z) :
  NilZero.string_of_int (Z.to_int c1) = NilZero.string_of_int (Z.to_int c2) -> c1 = c2.
Proof.
  assert (forall z, Z.to_int z <> Decimal.Pos Decimal.Nil /\ Z.to_int z <> Decimal.Neg Decimal.Nil)
    as NonNil.
  { intros z. destruct z; cbn; split; try discriminate; intros [= H];
      apply (f_equal Pos.of_uint) in H; rewrite DecimalPos.Unsigned.of_to in H;
      discriminate. }
  intros E. apply DecimalZ.to_int_inj.
  assert (Some (Z.to_int c1) = Some (Z.to_int c2)) as [= ->]; [|reflexivity].
  rewrite <- (NilZero.isi (Z.to_int c1)), <- (NilZero.isi (Z.to_int c2)), E;
    try apply NonNil. reflexivity.
Qed.

(** X20. The text of an error of [Publish] tells the errors apart: two
    errors with the same text are the same error, with the same cause
    or the same status code. *)
Theorem Error_text_identifies_error (e1 e2 : events.PublishError) :
  events.Error e1 = events.Error e2 -> e1 = e2.
Proof.
  destruct e1 as [c1|c1|c1|c1], e2 as [c2|c2|c2|c2]; cbn; intros E;
    try discriminate E; injection E as E; f_equal; try exact E.
  now apply status_text_inj.
Qed.

Lemma Error_text_identifies_error_witness :
  events.UnexpectedStatus 503 = events.UnexpectedStatus 503.
Proof.
  apply (Error_text_identifies_error (events.UnexpectedStatus 503)
           (events.UnexpectedStatus 503)).
  reflexivity.
Defined.
